(** * Peer-rating session server (server.js): session state machine and
      rating aggregation.

    The handlers of [server.js] are embedded as pure functions over an
    explicit [Session] document, an explicit document collection and an
    explicit list of emitted socket.io messages.

    Modelling conventions.
    - A JS string is a [string]; [trim] and [toLowerCase] are modelled on
      ASCII (white space is TAB, LF, VT, FF, CR and SPACE; only A-Z are
      lower-cased).
    - A rating ([Number] in the mongoose schema) is an integer [Z]; the
      sentinel for a skipped rating is [-1], as in the source.  A quotient
      [sum / length] is the exact rational, kept in lowest terms.
    - A JS object used as a dictionary is a [gmap] keyed by strings.
    - [[...new Set(xs)]] is the list of distinct elements in order of first
      occurrence ([setOf]).
    - [Date.now()], the random session identifier and the random tokens are
      inputs of the handlers that draw them. *)

From Stdlib Require Import ZArith QArith Ascii String.
From stdpp Require Import base list strings gmap.

Set Warnings "-clear-no-such-hyp".

Local Open Scope Z_scope.
Local Open Scope string_scope.
Local Open Scope list_scope.

(** ** JavaScript primitives used by the handlers *)

Module Js.

(** A value stored in a result dictionary: a number or a string. *)
Inductive value :=
| Num (q : Q)
| Str (s : string).

(** [[...new Set(l)]]: distinct elements, first occurrence first. *)
Fixpoint setOf (l : list string) : list string :=
  match l with
  | [] => []
  | x :: l' => x :: filter (λ y, y ≠ x) (setOf l')
  end.

(** [xs.reduce((sum, r) => sum + r, 0)] *)
Definition sum (xs : list Z) : Z := foldl Z.add 0 xs.

(** [sum(xs) / xs.length] for a non-empty [xs]. *)
Definition mean (xs : list Z) : Q :=
  Qred (Qmake (sum xs) (Pos.of_nat (length xs))).

Definition isSpace (c : ascii) : bool :=
  let n := nat_of_ascii c in
  bool_decide (n = 32%nat ∨ (9 ≤ n ∧ n ≤ 13)%nat).

Fixpoint trimStart (s : string) : string :=
  match s with
  | String c s' => if isSpace c then trimStart s' else s
  | EmptyString => EmptyString
  end.

Fixpoint trimEnd (s : string) : string :=
  match s with
  | String c s' =>
      match trimEnd s' with
      | EmptyString => if isSpace c then EmptyString else String c EmptyString
      | t => String c t
      end
  | EmptyString => EmptyString
  end.

(** [s.trim()] *)
Definition trim (s : string) : string := trimEnd (trimStart s).

Definition lowerChar (c : ascii) : ascii :=
  let n := nat_of_ascii c in
  if bool_decide (65 ≤ n ∧ n ≤ 90)%nat then ascii_of_nat (n + 32) else c.

(** [s.toLowerCase()] *)
Fixpoint toLowerCase (s : string) : string :=
  match s with
  | String c s' => String (lowerChar c) (toLowerCase s')
  | EmptyString => EmptyString
  end.

(** Truthiness of a string: only the empty string is falsy. *)
Definition truthy (s : string) : bool := bool_decide (s ≠ "").

End Js.

(** ** The session document (mongoose schema, lines 45-58) *)

Record Rating := mkRating {
  rater : string;
  target : string;
  topic : string;
  rating : Z
}.

#[global] Instance Rating_eq_dec : EqDecision Rating.
Proof. solve_decision. Defined.

(** The sentinel stored for a rating the rater did not give. *)
Definition SKIPPED : Z := -1.

Record Session := mkSession {
  sessionId : string;
  players : list string;
  timer : Z;
  isAnonymous : bool;
  isGameMode : bool;
  topics : list string;
  ratings : list Rating;
  phase : string;
  online : list string;
  playerTokens : list (string * string);
  timerStarted : bool;
  startTime : option Z
}.

Definition set_ratings (rs : list Rating) (s : Session) : Session :=
  mkSession (sessionId s) (players s) (timer s) (isAnonymous s) (isGameMode s)
    (topics s) rs (phase s) (online s) (playerTokens s) (timerStarted s)
    (startTime s).

Definition set_phase (p : string) (s : Session) : Session :=
  mkSession (sessionId s) (players s) (timer s) (isAnonymous s) (isGameMode s)
    (topics s) (ratings s) p (online s) (playerTokens s) (timerStarted s)
    (startTime s).

Definition set_timerStart (now : Z) (s : Session) : Session :=
  mkSession (sessionId s) (players s) (timer s) (isAnonymous s) (isGameMode s)
    (topics s) (ratings s) (phase s) (online s) (playerTokens s) true
    (Some now).

(** ** Messages handed to socket.io *)

Record Link := mkLink {
  l_username : string;
  l_token : string;
  l_url : string
}.

(** The [results] object of one player in anonymous mode. *)
Record AnonResults := mkAnonResults {
  topicAverages : gmap string Js.value
}.

(** The [sessionData] snapshot; the admin's snapshot has no [username]. *)
Record SessionData := mkSessionData {
  sd_username : option string;
  sd_players : list string;
  sd_topics : list string;
  sd_timer : Z;
  sd_anonymous : bool;
  sd_gameMode : bool;
  sd_phase : string;
  sd_timerStarted : bool;
  sd_startTime : option Z
}.

Inductive Payload :=
| PError (message : string)
| PSessionCreated (sid : string) (links : list Link) (adminLink : string)
| PSessionData (d : SessionData)
| PTimerStarted (tm : Z) (start : Z)
| PRatingsUpdated (username : string)
| PAnonResults (username : string) (results : option AnonResults)
| PPublicResults (results : list Rating).

(** The socket.io event name each payload is sent under. *)
Definition eventName (p : Payload) : string :=
  match p with
  | PError _ => "error"
  | PSessionCreated _ _ _ => "sessionCreated"
  | PSessionData _ => "sessionData"
  | PTimerStarted _ _ => "timerStarted"
  | PRatingsUpdated _ => "ratingsUpdated"
  | PAnonResults _ _ => "allRatingsSubmitted"
  | PPublicResults _ => "allRatingsSubmitted"
  end.

(** [socket.emit] reaches the calling connection only; [io.to(room).emit]
    reaches every connection that joined the room. *)
Inductive Emit :=
| ToSocket (p : Payload)
| ToRoom (room : string) (p : Payload).

Definition payloadOf (e : Emit) : Payload :=
  match e with ToSocket p => p | ToRoom _ p => p end.

(** The [rater] fields a payload carries. *)
Definition raterFields (p : Payload) : list string :=
  match p with
  | PPublicResults rs => rater <$> rs
  | _ => []
  end.

(** ** Completion check and aggregation: [emitResults] (lines 314-352) *)

(** [session.players.filter(p => p !== 'admin')] *)
Definition nonAdmin (ps : list string) : list string :=
  filter (λ p, p ≠ "admin") ps.

(** [[...new Set(session.ratings.map(r => r.rater))]] *)
Definition submittedUsers (ledger : list Rating) : list string :=
  Js.setOf (rater <$> ledger).

(** Lines 328 and 331: the ratings received by [player] on [tp] that are
    not skipped. *)
Definition ratingsForTopic (ledger : list Rating) (player tp : string)
  : list Rating :=
  filter (λ r, topic r = tp ∧ rating r ≠ -1)
    (filter (λ r, target r = player) ledger).

(** Lines 332-334. *)
Definition topicAverage (ledger : list Rating) (player tp : string)
  : Js.value :=
  let rs := ratingsForTopic ledger player tp in
  if bool_decide (0 < length rs)%nat
  then Js.Num (Js.mean (rating <$> rs))
  else Js.Str "No ratings".

(** Lines 329-336: the dictionary filled by [session.topics.forEach]. *)
Definition playerResults (s : Session) (player : string) : AnonResults :=
  mkAnonResults
    (foldl (λ acc tp, <[tp := topicAverage (ratings s) player tp]> acc)
       ∅ (topics s)).

(** Lines 326-337: [results], keyed by player. *)
Definition anonResults (s : Session) (ps : list string)
  : gmap string AnonResults :=
  foldl (λ acc player, <[player := playerResults s player]> acc) ∅ ps.

(** Lines 322-351: the phase moves to ['results'], the session is saved
    and the results are sent to the room. *)
Definition reveal (session : Session) (sid : string) (players : list string)
  : Session * list Emit :=
  let session' := set_phase "results" session in
  if isAnonymous session' then
    let results := anonResults session' players in
    (session',
     (λ player, ToRoom sid (PAnonResults player (results !! player)))
       <$> players)
  else
    (session', [ToRoom sid (PPublicResults (ratings session'))]).

(** [emitResults(session, sessionId, io)]: the session as it is saved and
    the messages sent.  An early [return] (lines 319-320) saves and sends
    nothing. *)
Definition emitResults (session : Session) (sid : string)
  : Session * list Emit :=
  let players := nonAdmin (players session) in
  let submitted := submittedUsers (ratings session) in
  if isGameMode session && bool_decide (length submitted < length players)%nat
  then (session, [])
  else if isAnonymous session
          && bool_decide (length submitted < length players)%nat
  then (session, [])
  else reveal session sid players.

(** ** [joinSession] (lines 139-215), on the session found *)

(** Line 163: the name whose token is [token], first match in the map's
    entry order. *)
Definition resolveToken (toks : list (string * string)) (token : string)
  : option string :=
  (λ e, e.2.1) <$> list_find (λ e, e.2 = token) toks.

(** Lines 191-196: the average sent to a late joiner. *)
Definition lateTopicAverage (ledger : list Rating) (username tp : string)
  : Js.value :=
  let xs := rating <$> filter (λ r, topic r = tp)
                         (filter (λ r, target r = username) ledger) in
  if bool_decide (0 < length xs)%nat then Js.Num (Js.mean xs) else Js.Num 0.

(** Lines 188-198. *)
Definition lateResults (s : Session) (username : string) : AnonResults :=
  mkAnonResults
    (foldl (λ acc tp, <[tp := lateTopicAverage (ratings s) username tp]> acc)
       ∅ (topics s)).

Definition sessionData (username : option string) (s : Session)
  : SessionData :=
  mkSessionData username (players s) (topics s) (timer s) (isAnonymous s)
    (isGameMode s) (phase s) (timerStarted s) (startTime s).

(** Lines 184-210: what a late joiner is sent. *)
Definition lateJoin (s : Session) (username : string) : list Emit :=
  if bool_decide (3 ≤ length (submittedUsers (ratings s)))%nat then
    if isAnonymous s
    then [ToSocket (PAnonResults username (Some (lateResults s username)))]
    else [ToSocket (PPublicResults (ratings s))]
  else [].

Record Joined := mkJoined {
  j_room : bool;                (* [socket.join(sessionId)] was called *)
  j_username : option string;   (* [socket.username] was set *)
  j_emits : list Emit
}.

Definition joinSession (session : Session) (token : string) (isAdmin : bool)
  : Joined :=
  if isAdmin then
    mkJoined true None [ToSocket (PSessionData (sessionData None session))]
  else
    match resolveToken (playerTokens session) token with
    | Some username =>
        if Js.truthy username then
          mkJoined true (Some username)
            (ToSocket (PSessionData (sessionData (Some username) session))
               :: lateJoin session username)
        else mkJoined false None
               [ToSocket (PError "Invalid or expired token")]
    | None => mkJoined false None [ToSocket (PError "Invalid or expired token")]
    end.

(** ** [submitRatings] (lines 276-306), on the session found *)

(** Lines 284-294: the nested [for ... in] loops over the submitted
    object, in enumeration order. *)
Definition newRatings (username : string)
    (submitted : list (string * list (string * Z))) : list Rating :=
  '(tgt, byTopic) ← submitted;
  '(tp, v) ← byTopic;
  [mkRating username tgt tp v].

(** Lines 296-297. *)
Definition replaceRatings (ledger : list Rating) (username : string)
    (new : list Rating) : list Rating :=
  filter (λ r, rater r ≠ username) ledger ++ new.

Definition submitRatings (session : Session) (sid username : string)
    (submitted : list (string * list (string * Z))) : Session * list Emit :=
  let session1 :=
    set_ratings
      (replaceRatings (ratings session) username (newRatings username submitted))
      session in
  let '(session2, out) := emitResults session1 sid in
  (session2, out ++ [ToRoom sid (PRatingsUpdated username)]).

(** ** The timer callback of [startTimer] (lines 236-269) *)

(** Line 242. *)
Definition unsubmitted (s : Session) : list string :=
  filter (λ p, p ∉ submittedUsers (ratings s)) (nonAdmin (players s)).

(** Lines 246-263: the tuples pushed for one [username], given the ledger
    as it is when that user's turn comes. *)
Definition autoRatings (ledger : list Rating) (players topics : list string)
    (username : string) : list Rating :=
  tgt ← players;
  if bool_decide (tgt ≠ username) then
    tp ← topics;
    match list_find (λ r, rater r = username ∧ target r = tgt ∧ topic r = tp)
            ledger with
    | Some _ => []
    | None => [mkRating username tgt tp (-1)]
    end
  else [].

(** Lines 245-265: the loop over the unsubmitted users. *)
Definition autoFill (ledger : list Rating) (players topics : list string)
    (users : list string) : list Rating :=
  foldl (λ acc username, acc ++ autoRatings acc players topics username)
    ledger users.

(** The callback, on the session re-read from the store. *)
Definition timerExpired (updatedSession : Session) (sid : string)
  : Session * list Emit :=
  let players := nonAdmin (players updatedSession) in
  let users := unsubmitted updatedSession in
  if bool_decide (0 < length users)%nat
     && bool_decide (phase updatedSession ≠ "results")
  then
    emitResults
      (set_ratings
         (autoFill (ratings updatedSession) players (topics updatedSession) users)
         updatedSession)
      sid
  else (updatedSession, []).

(** ** [createSession] (lines 65-137) *)

(** The fields destructured from [data].  [None] stands for a value that is
    missing or is not an array. *)
Record CreateData := mkCreateData {
  d_players : option (list string);
  d_timer : Z;
  d_isAnonymous : bool;
  d_isGameMode : bool;
  d_topics : option (list string)
}.

(** Line 85: [new Set(players.map(name => name.trim().toLowerCase()))]. *)
Definition uniquePlayers (ps : list string) : list string :=
  Js.setOf ((λ name, Js.toLowerCase (Js.trim name)) <$> ps).

(** Lines 69-99: the message of the first check that fails, if any.  (Line
    70 lacks a closing parenthesis; the condition is read as the second copy
    of the handler, line 580, writes it.) *)
Definition validate (data : CreateData) : option string :=
  match d_players data with
  | None => Some "Invalid player data"
  | Some ps =>
      if d_isAnonymous data && bool_decide (length ps < 4)%nat
      then Some "Anonymous mode requires at least 4 players"
      else if bool_decide (length ps < 2)%nat
      then Some "At least 2 players are required"
      else if bool_decide (length (uniquePlayers ps) ≠ length ps)
      then Some "Each player must have a unique name"
      else if bool_decide (Exists (λ name, Js.trim name = "") ps)
      then Some "Player names cannot be empty"
      else
        match d_topics data with
        | None => Some "All topics must be filled"
        | Some ts =>
            if bool_decide (Exists (λ t, t = "") ts)
            then Some "All topics must be filled"
            else None
        end
  end.

Section Server.

(** [process.env.FRONTEND_URL || 'http://localhost:3000'] *)
Variable FRONTEND_URL : string.

(** Lines 102-121: the document built from valid [data].  [sid] is the
    generated identifier and [tokenOf i] the token drawn for the [i]-th
    player (the names are pairwise distinct when this is reached). *)
Definition newSession (ps ts : list string) (data : CreateData)
    (sid : string) (tokenOf : nat → string) : Session :=
  mkSession sid ps (d_timer data) (d_isAnonymous data) (d_isGameMode data)
    ts [] "waiting" [] (imap (λ i p, (p, tokenOf i)) ps) false None.

(** Lines 125-129. *)
Definition links (ps : list string) (sid : string) (tokenOf : nat → string)
  : list Link :=
  imap (λ i p,
          mkLink p (tokenOf i)
            (FRONTEND_URL +:+ "/#/rate/" +:+ sid +:+ "/" +:+ tokenOf i)) ps.

(** The document to insert, if any, and the reply. *)
Definition createSession (data : CreateData) (sid : string)
    (tokenOf : nat → string) : option Session * list Emit :=
  match validate data with
  | Some message => (None, [ToSocket (PError message)])
  | None =>
      match d_players data, d_topics data with
      | Some ps, Some ts =>
          (Some (newSession ps ts data sid tokenOf),
           [ToSocket
              (PSessionCreated sid (links ps sid tokenOf)
                 (FRONTEND_URL +:+ "/#/rate/" +:+ sid +:+ "/admin"))])
      | _, _ => (None, [ToSocket (PError "Server error")])
      end
  end.

(** ** The server state *)

(** A callback registered with [setTimeout] and not yet run: the
    variables of its closure and its delay. *)
Record Timeout := mkTimeout {
  t_sessionId : string;
  t_startTime : Z;      (* [session.startTime] of the scheduling call *)
  t_delay : Z           (* [session.timer * 1000] *)
}.

Record Server := mkServer {
  store : list Session;            (* the Session collection *)
  rooms : list (nat * string);     (* connection, room joined *)
  socketUser : gmap nat string;    (* [socket.username] *)
  timeouts : list Timeout
}.

(** [Session.findOne({ sessionId })]: the first matching document and its
    position in the collection. *)
Definition findOne (sid : string) (st : list Session)
  : option (nat * Session) :=
  list_find (λ s, sessionId s = sid) st.

(** [socket.join(room)]: rooms are sets of connections. *)
Definition joinRoom (sock : nat) (room : string) (rs : list (nat * string))
  : list (nat * string) :=
  if bool_decide ((sock, room) ∈ rs) then rs else rs ++ [(sock, room)].

(** The connections an emitted message reaches. *)
Definition deliver (rs : list (nat * string)) (sock : nat) (e : Emit)
  : list (nat * Payload) :=
  match e with
  | ToSocket p => [(sock, p)]
  | ToRoom room p => (λ kr, (kr.1, p)) <$> filter (λ kr, kr.2 = room) rs
  end.

Definition deliveries (rs : list (nat * string)) (sock : nat)
    (out : list Emit) : list (nat * Payload) :=
  e ← out; deliver rs sock e.

Inductive Msg :=
| MCreateSession (data : CreateData) (sid : string) (tokenOf : nat → string)
| MJoinSession (sid token : string) (isAdmin : bool)
| MStartTimer (sid : string) (now : Z)
| MSubmitRatings (sid username : string)
    (submitted : list (string * list (string * Z))).

Definition notFound : list Emit := [ToSocket (PError "Session not found")].

(** Lines 217-234 and 269: [startTimer] on the session found. *)
Definition startTimer (session : Session) (sid : string) (now : Z)
  : Session * list Emit * Timeout :=
  let session' := set_timerStart now session in
  (session',
   [ToRoom sid (PTimerStarted (timer session') now)],
   mkTimeout sid now (timer session' * 1000)).

(** One message from connection [sock], handled to completion. *)
Definition handle (w : Server) (sock : nat) (m : Msg) : Server * list Emit :=
  match m with
  | MCreateSession data sid tokenOf =>
      match createSession data sid tokenOf with
      | (Some session, out) =>
          (mkServer (store w ++ [session]) (rooms w) (socketUser w)
             (timeouts w), out)
      | (None, out) => (w, out)
      end
  | MJoinSession sid token isAdmin =>
      match findOne sid (store w) with
      | None => (w, notFound)
      | Some (_, session) =>
          let j := joinSession session token isAdmin in
          (mkServer (store w)
             (if j_room j then joinRoom sock sid (rooms w) else rooms w)
             (match j_username j with
              | Some u => <[sock := u]> (socketUser w)
              | None => socketUser w
              end)
             (timeouts w),
           j_emits j)
      end
  | MStartTimer sid now =>
      match findOne sid (store w) with
      | None => (w, notFound)
      | Some (i, session) =>
          let '(session', out, t) := startTimer session sid now in
          (mkServer (<[i := session']> (store w)) (rooms w) (socketUser w)
             (timeouts w ++ [t]), out)
      end
  | MSubmitRatings sid username submitted =>
      match findOne sid (store w) with
      | None => (w, notFound)
      | Some (i, session) =>
          let '(session', out) := submitRatings session sid username submitted in
          (mkServer (<[i := session']> (store w)) (rooms w) (socketUser w)
             (timeouts w), out)
      end
  end.

(** The [k]-th pending callback runs (lines 236-269) and is discarded. *)
Definition fire (w : Server) (k : nat) : Server * list Emit :=
  match timeouts w !! k with
  | None => (w, [])
  | Some t =>
      let pending := delete k (timeouts w) in
      match findOne (t_sessionId t) (store w) with
      | None => (mkServer (store w) (rooms w) (socketUser w) pending, [])
      | Some (i, updatedSession) =>
          let '(session', out) :=
            timerExpired updatedSession (t_sessionId t) in
          (mkServer (<[i := session']> (store w)) (rooms w) (socketUser w)
             pending, out)
      end
  end.

(** A scheduled callback is stale when a later [startTimer] has replaced
    the start time it was scheduled with. *)
Definition stale (w : Server) (t : Timeout) : Prop :=
  ∃ i s, findOne (t_sessionId t) (store w) = Some (i, s)
         ∧ startTime s ≠ Some (t_startTime t).

End Server.


(** ** Sample sessions *)

Definition sampleTopics : list string := ["clarity"; "pace"].

Definition sampleSession (ps : list string) (anon game : bool)
    (ledger : list Rating) : Session :=
  mkSession "s1" ps 30 anon game sampleTopics ledger "waiting" []
    ((λ p, (p, "tok-" +:+ p)) <$> ps) false None.

Definition sampleServer (s : Session) : Server :=
  mkServer [s] [] ∅ [].

(** The submitted object [{ [tgt]: { clarity: a, pace: b } }]. *)
Definition rate (tgt : string) (a b : Z) : string * list (string * Z) :=
  (tgt, [("clarity", a); ("pace", b)]).

(** Players A, B, C of whom only A has submitted. *)
Definition onlyAliceSubmitted : Session :=
  sampleSession ["alice"; "bob"; "carol"] false false
    [mkRating "alice" "bob" "clarity" 4; mkRating "alice" "bob" "pace" 2;
     mkRating "alice" "carol" "clarity" 5; mkRating "alice" "carol" "pace" 3].

(** Four players in anonymous mode; three of them have submitted. *)
Definition threeOfFourSubmitted : Session :=
  sampleSession ["alice"; "bob"; "carol"; "dave"] true false
    [mkRating "alice" "dave" "clarity" 4; mkRating "bob" "dave" "clarity" 2;
     mkRating "carol" "dave" "clarity" SKIPPED;
     mkRating "carol" "dave" "pace" SKIPPED].

(** A game-mode session of two players, after [alice] and then a caller
    naming itself [zoe] have each sent [submitRatings]. *)
Definition aliceThenOutsider : Session :=
  (submitRatings
     (submitRatings (sampleSession ["alice"; "bob"] false true []) "s1"
        "alice" [rate "bob" 4 5]).1
     "s1" "zoe" [rate "alice" 1 1]).1.

(** A session created with a participant named [admin]: [admin] and [bob]
    have rated, [carol] has not. *)
Definition adminAndBobRated : Session :=
  sampleSession ["admin"; "bob"; "carol"] false true
    [mkRating "admin" "bob" "clarity" 3; mkRating "bob" "carol" "clarity" 4].


(** ** Inputs of [createSession] that are to be refused *)

(** As the specification words it: no participant list, fewer than 2
    participants, fewer than 4 in anonymous mode, names that are duplicates
    up to letter case, an empty or white-space-only name, or topics that are
    missing, empty, or hold an empty label. *)
Definition specMalformed (data : CreateData) : Prop :=
  match d_players data with
  | None => True
  | Some ps =>
      (length ps < 2)%nat
      ∨ (d_isAnonymous data = true ∧ (length ps < 4)%nat)
      ∨ ¬ NoDup (Js.toLowerCase <$> ps)
      ∨ Exists (λ name, Js.trim name = "") ps
      ∨ match d_topics data with
        | None => True
        | Some ts => ts = [] ∨ "" ∈ ts
        end
  end.

(** What lines 69-99 refuse: names are compared after trimming and
    lower-casing, and a topic list is refused only when it is missing or
    holds an empty label. *)
Definition refused (data : CreateData) : Prop :=
  match d_players data with
  | None => True
  | Some ps =>
      (length ps < 2)%nat
      ∨ (d_isAnonymous data = true ∧ (length ps < 4)%nat)
      ∨ ¬ NoDup ((λ name, Js.toLowerCase (Js.trim name)) <$> ps)
      ∨ Exists (λ name, Js.trim name = "") ps
      ∨ match d_topics data with
        | None => True
        | Some ts => "" ∈ ts
        end
  end.


Definition twoTopics : CreateData :=
  mkCreateData (Some ["alice"; "bob"]) 30 false false (Some sampleTopics).

Definition emptyServer : Server := mkServer [] [] ∅ [].

#[global] Instance refused_dec (data : CreateData) : Decision (refused data).
Proof.
  unfold refused.
  destruct (d_players data); [|apply _].
  destruct (d_topics data); apply _.
Defined.

#[global] Instance specMalformed_dec (data : CreateData)
  : Decision (specMalformed data).
Proof.
  unfold specMalformed.
  destruct (d_players data); [|apply _].
  destruct (d_topics data); apply _.
Defined.



(** ** Who receives which results *)


(** Messages handled one after the other; the replies are dropped. *)
Definition handleAll (url : string) (w : Server) (ms : list (nat * Msg))
  : Server :=
  foldl (λ w' km, (handle url w' km.1 km.2).1) w ms.

(** The four players of an anonymous session have joined, on the
    connections 0 to 3; [alice], [bob] and [carol] have submitted. *)
Definition fourJoined : Server :=
  handleAll "" (sampleServer threeOfFourSubmitted)
    [(0%nat, MJoinSession "s1" "tok-alice" false);
     (1%nat, MJoinSession "s1" "tok-bob" false);
     (2%nat, MJoinSession "s1" "tok-carol" false);
     (3%nat, MJoinSession "s1" "tok-dave" false)].

(** [dave] submits last, on connection 3. *)
Definition daveSubmits : Server * list Emit :=
  handle "" fourJoined 3 (MSubmitRatings "s1" "dave" [rate "alice" 5 4]).

(** The session once [dave] has submitted too. *)
Definition fourSubmitted : Session :=
  (submitRatings threeOfFourSubmitted "s1" "dave" [rate "alice" 5 4]).1.

(** ** Runs of the server *)

Inductive Event :=
| EMsg (sock : nat) (m : Msg)     (* a message arrives and is handled *)
| EFire (k : nat).                (* the [k]-th pending callback runs *)

Definition step (url : string) (w : Server) (e : Event) : Server :=
  match e with
  | EMsg sock m => (handle url w sock m).1
  | EFire k => (fire w k).1
  end.

Definition run (url : string) (w : Server) (es : list Event) : Server :=
  foldl (step url) w es.

(** Every tuple of the ledger has its rater and its target among the
    participants and its topic among the topics of the session. *)
Definition ledgerOk (s : Session) : Prop :=
  Forall (λ r, rater r ∈ players s ∧ target r ∈ players s
               ∧ topic r ∈ topics s) (ratings s).

(** A submission that names a participant as rater, participants as targets
    and topics of the session. *)
Definition validSubmission (s : Session) (username : string)
    (submitted : list (string * list (string * Z))) : Prop :=
  username ∈ players s
  ∧ Forall (λ tb, tb.1 ∈ players s
                  ∧ Forall (λ tv, tv.1 ∈ topics s) tb.2) submitted.

Definition eventOk (w : Server) (e : Event) : Prop :=
  match e with
  | EMsg _ (MSubmitRatings sid username submitted) =>
      ∀ i s, findOne sid (store w) = Some (i, s) →
             validSubmission s username submitted
  | _ => True
  end.

(** Every submission of the run is valid for the session it reaches. *)
Fixpoint traceOk (url : string) (w : Server) (es : list Event) : Prop :=
  match es with
  | [] => True
  | e :: es' => eventOk w e ∧ traceOk url (step url w e) es'
  end.

(** The timer of a session with an unsubmitted player is started at time
    1000 and started again at time 5000. *)
Definition restartedTimer : Server :=
  run "" (sampleServer onlyAliceSubmitted)
    [EMsg 0 (MStartTimer "s1" 1000); EMsg 0 (MStartTimer "s1" 5000)].

(** A session is created; then a caller that is no participant submits a
    rating of somebody who is no participant, on a topic the session does
    not have. *)
Definition outsiderSubmits : Server :=
  run "" emptyServer
    [EMsg 0 (MCreateSession twoTopics "s1" (λ _, "t"));
     EMsg 1 (MSubmitRatings "s1" "zoe" [("nobody", [("speed", 5)])])].

(** A session is created and joined, its timer is started, one participant
    submits and the timer expires. *)
Definition ordinaryRun : list Event :=
  [EMsg 0 (MCreateSession twoTopics "s1" (λ _, "t"));
   EMsg 1 (MJoinSession "s1" "t" false);
   EMsg 0 (MStartTimer "s1" 1000);
   EMsg 1 (MSubmitRatings "s1" "alice" [rate "bob" 4 5]);
   EFire 0].

Definition startedOnce : Server :=
  run "" (sampleServer onlyAliceSubmitted) [EMsg 0 (MStartTimer "s1" 1000)].

#[global] Instance ledgerOk_dec (s : Session) : Decision (ledgerOk s).
Proof. unfold ledgerOk. apply _. Defined.

#[global] Instance validSubmission_dec (s : Session) (username : string)
    (submitted : list (string * list (string * Z)))
  : Decision (validSubmission s username submitted).
Proof. unfold validSubmission. apply _. Defined.

(** ** The second copy of [emitResults] in [server.js] (lines 456-457 and
       475-569)

    The file holds a second, longer body of [emitResults].  It differs from
    the first in public mode, where it sends the ledger tagged with the last
    submitter and returns before the phase is touched, and in the anonymous
    payload, which also has [totalAverage] and [skippedCounts]. *)

Module SecondCopy.

Record Results := mkResults {
  topicAverages : gmap string Js.value;
  totalAverage : Js.value;
  skippedCounts : gmap string nat
}.

Inductive Payload :=
| PAnon (username : string) (results : option Results)
| PPublic (username : option string) (results : list Rating).

(** Line 529. *)
Definition ratingsForTopic (ledger : list Rating) (player tp : string)
  : list Rating :=
  filter (λ r, topic r = tp) (filter (λ r, target r = player) ledger).

(** Lines 530 and 535-539. *)
Definition topicAverage (ledger : list Rating) (player tp : string)
  : Js.value :=
  let validRatings :=
    rating <$> filter (λ r, rating r ≠ -1) (ratingsForTopic ledger player tp) in
  if bool_decide (0 < length validRatings)%nat
  then Js.Num (Js.mean validRatings)
  else Js.Str "No ratings".

(** Line 531. *)
Definition skippedCount (ledger : list Rating) (player tp : string) : nat :=
  length (filter (λ r, rating r = -1) (ratingsForTopic ledger player tp)).

(** Lines 543-546: [Object.values(topicAverages)] restricted to numbers,
    and their mean, or ['-']. *)
Definition totalAvg (averages : gmap string Js.value) (keys : list string)
  : Js.value :=
  let validAverages :=
    omap (λ k, match averages !! k with
               | Some (Js.Num q) => Some q
               | _ => None
               end) (Js.setOf keys) in
  if bool_decide (0 < length validAverages)%nat
  then Js.Num (Qred (foldl Qplus 0%Q validAverages
                     / inject_Z (Z.of_nat (length validAverages))))
  else Js.Str "-".

(** Lines 524-552. *)
Definition playerResults (s : Session) (player : string) : Results :=
  let averages :=
    foldl (λ acc tp, <[tp := topicAverage (ratings s) player tp]> acc)
      ∅ (topics s) in
  mkResults averages (totalAvg averages (topics s))
    (foldl (λ acc tp, <[tp := skippedCount (ratings s) player tp]> acc)
       ∅ (topics s)).

(** Lines 517-568.  A message is a room and a payload: this body only
    sends to rooms. *)
Definition reveal (session : Session) (sid : string) (players : list string)
  : Session * list (string * Payload) :=
  let session' := set_phase "results" session in
  if isAnonymous session' then
    let results : gmap string Results :=
      foldl (λ acc player, <[player := playerResults session' player]> acc)
        ∅ players in
    (session', (λ player, (sid, PAnon player (results !! player))) <$> players)
  else
    (session', [(sid, PPublic None (ratings session'))]).

(** Lines 456-457 and 475-512, then [reveal]. *)
Definition emitResults (session : Session) (sid : string)
  : Session * list (string * Payload) :=
  let players := nonAdmin (players session) in
  let submitted := submittedUsers (ratings session) in
  if isGameMode session then
    if bool_decide (length submitted < length players)%nat
    then (session, [])
    else reveal session sid players
  else if isAnonymous session then
    if bool_decide (length submitted < length players)%nat
    then (session, [])
    else reveal session sid players
  else
    match last submitted with
    | Some lastSubmittedUser =>
        if Js.truthy lastSubmittedUser
        then (session,
              [(sid, PPublic (Some lastSubmittedUser) (ratings session))])
        else reveal session sid players
    | None => reveal session sid players
    end.

End SecondCopy.

(** ** Sessions along a run *)

(** The session a message is addressed to. *)
Definition msgSession (m : Msg) : string :=
  match m with
  | MCreateSession _ sid _ => sid
  | MJoinSession sid _ _ => sid
  | MStartTimer sid _ => sid
  | MSubmitRatings sid _ _ => sid
  end.

(** The fields no handler assigns after creation. *)
Definition sameConfig (s s' : Session) : Prop :=
  sessionId s' = sessionId s ∧ players s' = players s ∧ timer s' = timer s
  ∧ isAnonymous s' = isAnonymous s ∧ isGameMode s' = isGameMode s
  ∧ topics s' = topics s ∧ online s' = online s
  ∧ playerTokens s' = playerTokens s.

(** The phases a handler ever writes. *)
Definition phaseOk (s : Session) : Prop :=
  phase s = "waiting" ∨ phase s = "results".

(** How a stored session can differ from an earlier state of itself: the
    configuration is the same and the phase is the same or ['results']. *)
Definition evolves (s s' : Session) : Prop :=
  sameConfig s s' ∧ (phase s' = phase s ∨ phase s' = "results").

(** The event is a [submitRatings] message sent in the name of [R]. *)
Definition submitsAs (R : string) (e : Event) : Prop :=
  match e with
  | EMsg _ (MSubmitRatings _ username _) => username = R
  | _ => False
  end.

(** The tuples of rater [R] in [s] are still in [s']. *)
Definition keepsTuplesOf (R : string) (s s' : Session) : Prop :=
  ∀ r, r ∈ ratings s → rater r = R → r ∈ ratings s'.

(** The timer is started, [bob] submits, and the callback runs. *)
Definition timedRun : list Event :=
  [EMsg 0 (MStartTimer "s1" 1000);
   EMsg 1 (MSubmitRatings "s1" "bob" [rate "alice" 3 3; rate "carol" 2 5]);
   EFire 0].

(** The session an event is addressed to: the one named in the message, or
    the one in the closure of the callback that runs. *)
Definition eventSession (w : Server) (e : Event) : option string :=
  match e with
  | EMsg _ m => Some (msgSession m)
  | EFire k => t_sessionId <$> timeouts w !! k
  end.

(** Two sessions side by side. *)
Definition otherSession : Session :=
  mkSession "s2" ["xena"; "yuri"] 10 false true ["tone"] [] "waiting" []
    [("xena", "tok-x"); ("yuri", "tok-y")] false None.

Definition twoSessions : Server :=
  mkServer [onlyAliceSubmitted; otherSession] [(7%nat, "s2")] ∅
    [mkTimeout "s1" 1000 30000].


(** The four joined players of [fourJoined], the timer started once. *)
Definition joinedAndStarted : Server :=
  run "" (sampleServer onlyAliceSubmitted)
    [EMsg 1 (MJoinSession "s1" "tok-bob" false);
     EMsg 0 (MStartTimer "s1" 1000)].

(** A game-mode session created without topics, nobody has submitted. *)
Definition noTopicsSession : Session :=
  mkSession "s3" ["alice"; "bob"] 30 false true [] [] "waiting" []
    [("alice", "tok-a"); ("bob", "tok-b")] false None.

(** * Properties *)

(** ** Distinct raters *)

Lemma elem_of_setOf (x : string) (l : list string) :
  x ∈ Js.setOf l ↔ x ∈ l.
Proof.
  induction l as [|y l IH]; simpl; [done|].
  rewrite !elem_of_cons, list_elem_of_filter, IH.
  destruct (decide (x = y)); naive_solver.
Qed.

Lemma NoDup_setOf (l : list string) : NoDup (Js.setOf l).
Proof.
  induction l as [|y l IH]; simpl; [constructor|].
  constructor; [|by apply NoDup_filter].
  rewrite list_elem_of_filter. naive_solver.
Qed.

Lemma elem_of_submittedUsers (u : string) (ledger : list Rating) :
  u ∈ submittedUsers ledger ↔ ∃ r, r ∈ ledger ∧ rater r = u.
Proof.
  unfold submittedUsers. rewrite elem_of_setOf, list_elem_of_fmap.
  naive_solver.
Qed.

(** ** Frame of [emitResults]: only the phase can change *)

Lemma emitResults_ratings (s : Session) (sid : string) :
  ratings (emitResults s sid).1 = ratings s.
Proof.
  unfold emitResults, reveal.
  repeat (case_match; simpl; try done).
Qed.

Lemma emitResults_frame (s : Session) (sid : string) :
  (emitResults s sid).1 = s ∨ (emitResults s sid).1 = set_phase "results" s.
Proof.
  unfold emitResults, reveal.
  repeat (case_match; simpl; auto).
Qed.

Lemma emitResults_sessionId (s : Session) (sid : string) :
  sessionId (emitResults s sid).1 = sessionId s.
Proof. destruct (emitResults_frame s sid) as [-> | ->]; done. Qed.

(** ** The document collection *)

Lemma findOne_Some (sid : string) (st : list Session) (i : nat) (s : Session) :
  findOne sid st = Some (i, s) →
  st !! i = Some s ∧ sessionId s = sid.
Proof.
  unfold findOne. intros H. apply list_find_Some in H. naive_solver.
Qed.

(** Saving a document with the same identifier keeps it where [findOne]
    looks. *)
Lemma findOne_insert (sid : string) (st : list Session) (i : nat)
    (s s' : Session) :
  findOne sid st = Some (i, s) →
  sessionId s' = sid →
  findOne sid (<[i := s']> st) = Some (i, s').
Proof.
  unfold findOne. intros H Hs'.
  apply list_find_Some in H as (Hi & _ & Hlt).
  apply list_find_Some. split_and!.
  - apply list_lookup_insert_eq. by eapply lookup_lt_Some.
  - done.
  - intros j y Hj Hji. rewrite list_lookup_insert_ne in Hj by lia. eauto.
Qed.

Lemma findOne_insert_other (sid sid' : string) (st : list Session) (i : nat)
    (s s' : Session) :
  findOne sid st = Some (i, s) →
  sessionId s' = sid →
  sid' ≠ sid →
  findOne sid' (<[i := s']> st) = findOne sid' st.
Proof.
  unfold findOne. intros H Hs' Hne.
  apply list_find_Some in H as (Hi & Hsid & _).
  revert i Hi. induction st as [|x st IH]; intros i Hi; [done|].
  destruct i as [|i]; simpl in *.
  - injection Hi as ->. rewrite !decide_False by congruence. done.
  - case_decide; [done|]. by rewrite (IH i Hi).
Qed.

(** ** Submitting ratings *)

Lemma newRatings_rater (R : string) (submitted : list (string * list (string * Z))) :
  Forall (λ r, rater r = R) (newRatings R submitted).
Proof.
  apply Forall_forall. intros r Hr. unfold newRatings in Hr.
  apply list_elem_of_bind in Hr as ([tgt byTopic] & Hr & _).
  apply list_elem_of_bind in Hr as ([tp v] & Hr & _).
  apply list_elem_of_singleton in Hr. by subst.
Qed.

Lemma elem_of_newRatings (R : string)
    (submitted : list (string * list (string * Z))) (r : Rating) :
  r ∈ newRatings R submitted ↔
  ∃ tgt byTopic tp v,
    (tgt, byTopic) ∈ submitted ∧ (tp, v) ∈ byTopic ∧ r = mkRating R tgt tp v.
Proof.
  unfold newRatings. rewrite list_elem_of_bind. split.
  - intros ([tgt byTopic] & Hr & Hin).
    apply list_elem_of_bind in Hr as ([tp v] & Hr & Hin').
    apply list_elem_of_singleton in Hr. eauto 10.
  - intros (tgt & byTopic & tp & v & Hin & Hin' & ->).
    exists (tgt, byTopic). split; [|done].
    apply list_elem_of_bind. exists (tp, v). split; [|done].
    by apply list_elem_of_singleton.
Qed.


Lemma replaceRatings_others (ledger : list Rating) (R : string) (new : list Rating) :
  Forall (λ r, rater r = R) new →
  filter (λ r, rater r ≠ R) (replaceRatings ledger R new)
  = filter (λ r, rater r ≠ R) ledger.
Proof.
  intros Hnew. unfold replaceRatings. rewrite filter_app.
  assert (filter (λ r, rater r ≠ R) new = []) as ->.
  { induction Hnew as [|x l Hx _ IH]; [done|].
    rewrite filter_cons, decide_False by naive_solver. done. }
  rewrite app_nil_r.
  induction ledger as [|x l IH]; [done|].
  rewrite !filter_cons. case_decide; [|done].
  by rewrite filter_cons, decide_True, IH.
Qed.

Lemma submitRatings_ratings (session : Session) (sid R : string)
    (submitted : list (string * list (string * Z))) :
  ratings (submitRatings session sid R submitted).1
  = replaceRatings (ratings session) R (newRatings R submitted).
Proof.
  unfold submitRatings.
  destruct (emitResults _ sid) as [s2 out] eqn:E. simpl.
  change s2 with (s2, out).1. rewrite <- E. by rewrite emitResults_ratings.
Qed.

Lemma submitRatings_sessionId (session : Session) (sid R : string)
    (submitted : list (string * list (string * Z))) :
  sessionId (submitRatings session sid R submitted).1 = sessionId session.
Proof.
  unfold submitRatings.
  destruct (emitResults _ sid) as [s2 out] eqn:E. simpl.
  change s2 with (s2, out).1. rewrite <- E. by rewrite emitResults_sessionId.
Qed.



(** ** The timer callback *)

Lemma autoRatings_spec (ledger : list Rating) (ps ts : list string)
    (u : string) (r : Rating) :
  r ∈ autoRatings ledger ps ts u →
  rater r = u ∧ target r ∈ ps ∧ target r ≠ u ∧ topic r ∈ ts
  ∧ rating r = SKIPPED.
Proof.
  unfold autoRatings. intros Hr.
  apply list_elem_of_bind in Hr as (tgt & Hr & Htgt).
  case_bool_decide; [|by apply elem_of_nil in Hr].
  apply list_elem_of_bind in Hr as (tp & Hr & Htp).
  case_match; [by apply elem_of_nil in Hr|].
  apply list_elem_of_singleton in Hr. by subst.
Qed.

(** Every pair is covered once a user's turn has passed: by an older tuple
    of that user, or by the tuple just pushed. *)
Lemma autoRatings_covers (ledger : list Rating) (ps ts : list string)
    (u tgt tp : string) :
  tgt ∈ ps → tgt ≠ u → tp ∈ ts →
  (∃ r, r ∈ ledger ∧ rater r = u ∧ target r = tgt ∧ topic r = tp)
  ∨ mkRating u tgt tp SKIPPED ∈ autoRatings ledger ps ts u.
Proof.
  intros Htgt Hne Htp.
  destruct (list_find (λ r, rater r = u ∧ target r = tgt ∧ topic r = tp) ledger)
    as [[i r]|] eqn:E.
  - left. apply list_find_Some in E as (Hi & HP & _).
    exists r. split; [by eapply list_elem_of_lookup_2|done].
  - right. unfold autoRatings.
    apply list_elem_of_bind. exists tgt. split; [|done].
    rewrite bool_decide_true by done.
    apply list_elem_of_bind. exists tp. split; [|done].
    rewrite E. by apply list_elem_of_singleton.
Qed.

Lemma autoFill_spec (U ps ts users : list string) (ledger : list Rating) :
  users ⊆ U →
  (∀ r, r ∈ ledger → rater r ∈ U → rating r = SKIPPED) →
  ∃ added,
    autoFill ledger ps ts users = ledger ++ added
    ∧ Forall (λ r, rater r ∈ users ∧ target r ∈ ps ∧ target r ≠ rater r
                   ∧ topic r ∈ ts ∧ rating r = SKIPPED) added
    ∧ ∀ u tgt tp, u ∈ users → tgt ∈ ps → tgt ≠ u → tp ∈ ts →
        mkRating u tgt tp SKIPPED ∈ ledger ++ added.
Proof.
  revert ledger. induction users as [|u rest IH]; intros ledger HU Hinv.
  - exists []. rewrite app_nil_r. split_and!; [done|constructor|].
    intros u ? ? Hu. by apply elem_of_nil in Hu.
  - unfold autoFill. simpl. fold (autoFill (ledger ++ autoRatings ledger ps ts u) ps ts rest).
    destruct (IH (ledger ++ autoRatings ledger ps ts u)) as (added & Heq & Hadd & Hcov).
    + intros x Hx. apply HU. by right.
    + intros r Hr HrU. apply elem_of_app in Hr as [Hr|Hr]; [by apply Hinv|].
      by apply autoRatings_spec in Hr as (_ & _ & _ & _ & ?).
    + exists (autoRatings ledger ps ts u ++ added).
      rewrite app_assoc. split_and!; [done| |].
      * apply Forall_app. split.
        -- apply Forall_forall. intros r Hr.
           apply autoRatings_spec in Hr as (Hu & ? & ? & ? & ?).
           rewrite Hu. split_and!; try done. by left.
        -- eapply Forall_impl; [exact Hadd|]. simpl.
           intros r (? & ? & ? & ? & ?). split_and!; try done. by right.
      * intros v tgt tp Hv Htgt Hne Htp.
        apply elem_of_cons in Hv as [->|Hv]; [|by apply Hcov].
        apply elem_of_app. left.
        destruct (autoRatings_covers ledger ps ts u tgt tp Htgt Hne Htp)
          as [(r & Hr & Hru & Hrt & Hrp)|Hnew].
        -- apply elem_of_app. left.
           assert (rating r = SKIPPED) as Hs.
           { apply Hinv; [done|]. rewrite Hru. apply HU. by left. }
           destruct r; simpl in *; by subst.
        -- apply elem_of_app. by right.
Qed.

Lemma unsubmitted_spec (s : Session) (u : string) :
  u ∈ unsubmitted s ↔
  u ∈ players s ∧ u ≠ "admin" ∧ ∀ r, r ∈ ratings s → rater r ≠ u.
Proof.
  unfold unsubmitted, nonAdmin.
  rewrite !list_elem_of_filter, elem_of_submittedUsers. naive_solver.
Qed.

(** C7. When the timer callback runs on a session whose phase is not
    ['results'] and that has unsubmitted players, the saved ledger is the old
    ledger followed by SKIPPED tuples of unsubmitted raters only (so every
    tuple submitted before is unchanged), and it holds a SKIPPED tuple of
    every unsubmitted player for every topic and every other non-admin
    player as target.  When the phase is ['results'] or nobody is
    unsubmitted, the callback changes nothing and sends nothing. *)
Theorem timerExpired_fills_unsubmitted (s : Session) (sid : string) :
  (phase s ≠ "results" → unsubmitted s ≠ [] →
   (∀ u tgt tp,
      u ∈ unsubmitted s → tgt ∈ nonAdmin (players s) → tgt ≠ u →
      tp ∈ topics s →
      mkRating u tgt tp SKIPPED ∈ ratings (timerExpired s sid).1)
   ∧ ∃ added,
       ratings (timerExpired s sid).1 = ratings s ++ added
       ∧ Forall (λ r, rater r ∈ unsubmitted s ∧ rating r = SKIPPED) added)
  ∧ (phase s = "results" ∨ unsubmitted s = [] → timerExpired s sid = (s, [])).
Proof.
  split.
  - intros Hphase Hne. unfold timerExpired.
    rewrite bool_decide_true by (destruct (unsubmitted s); [done|simpl; lia]).
    rewrite bool_decide_true by done. simpl.
    rewrite emitResults_ratings. simpl.
    destruct (autoFill_spec (unsubmitted s) (nonAdmin (players s)) (topics s)
                (unsubmitted s) (ratings s)) as (added & Heq & Hadd & Hcov).
    + done.
    + intros r Hr Hu. apply unsubmitted_spec in Hu as (_ & _ & Hu).
      by destruct (Hu r Hr).
    + rewrite Heq. split; [exact Hcov|].
      exists added. split; [done|].
      eapply Forall_impl; [exact Hadd|]. simpl. naive_solver.
  - intros [Hphase|Hnone]; unfold timerExpired.
    + rewrite (bool_decide_false (phase s ≠ "results")) by naive_solver.
      by rewrite andb_false_r.
    + rewrite Hnone. done.
Qed.

(** Closed decidable goals are settled by running their decision
    procedure. *)
Ltac by_computation :=
  match goal with
  | |- _ = _ => vm_compute; reflexivity
  | |- _ => apply (bool_decide_unpack _); vm_compute; exact I
  end.

Lemma timerExpired_fills_unsubmitted_witness :
  (mkRating "carol" "alice" "pace" SKIPPED
     ∈ ratings (timerExpired onlyAliceSubmitted "s1").1
   ∧ ∃ added,
       ratings (timerExpired onlyAliceSubmitted "s1").1
         = ratings onlyAliceSubmitted ++ added
       ∧ Forall (λ r, rater r ∈ unsubmitted onlyAliceSubmitted
                      ∧ rating r = SKIPPED) added)
  ∧ timerExpired (set_phase "results" onlyAliceSubmitted) "s1"
    = (set_phase "results" onlyAliceSubmitted, []).
Proof.
  split.
  - destruct (timerExpired_fills_unsubmitted onlyAliceSubmitted "s1")
      as [[Hcov Hadd] _]; [discriminate | discriminate |].
    split; [|exact Hadd].
    apply Hcov; by_computation.
  - apply (timerExpired_fills_unsubmitted
             (set_phase "results" onlyAliceSubmitted) "s1").
    left. reflexivity.
Defined.

(** ** Joining *)

(** C10. A participant who joins with a token that resolves to their
    (non-empty) name is sent an ['allRatingsSubmitted'] payload on their own
    connection exactly when the ledger holds tuples of at least three
    distinct raters: whatever the mode, the phase and the completion rule of
    the mode.  With fewer than three distinct raters the join sends the
    ['sessionData'] snapshot only. *)
Theorem joinSession_late_joiner_results
    (session : Session) (token username : string) :
  resolveToken (playerTokens session) token = Some username →
  username ≠ "" →
  (3 ≤ length (submittedUsers (ratings session))
   → ∃ p, j_emits (joinSession session token false)
          = [ToSocket (PSessionData (sessionData (Some username) session));
             ToSocket p]
          ∧ eventName p = "allRatingsSubmitted")%nat
  ∧ (length (submittedUsers (ratings session)) < 3
     → j_emits (joinSession session token false)
       = [ToSocket (PSessionData (sessionData (Some username) session))])%nat.
Proof.
  intros Htok Hname. unfold joinSession. rewrite Htok.
  unfold Js.truthy. rewrite bool_decide_true by done. simpl.
  unfold lateJoin. split; intros Hlen.
  - rewrite bool_decide_true by done.
    destruct (isAnonymous session); eauto.
  - rewrite bool_decide_false by lia. done.
Qed.

Lemma joinSession_late_joiner_results_witness :
  (∃ p, j_emits (joinSession threeOfFourSubmitted "tok-dave" false)
        = [ToSocket (PSessionData
                       (sessionData (Some "dave") threeOfFourSubmitted));
           ToSocket p]
        ∧ eventName p = "allRatingsSubmitted")
  ∧ j_emits (joinSession onlyAliceSubmitted "tok-bob" false)
    = [ToSocket (PSessionData (sessionData (Some "bob") onlyAliceSubmitted))].
Proof.
  split.
  - apply (joinSession_late_joiner_results threeOfFourSubmitted "tok-dave" "dave");
      [reflexivity | discriminate | vm_compute; lia].
  - apply (joinSession_late_joiner_results onlyAliceSubmitted "tok-bob" "bob");
      [reflexivity | discriminate | vm_compute; lia].
Defined.

(** The number of entries of [submittedUsers] is the number of distinct
    raters: the list has no repetition and holds exactly the raters. *)
Lemma submittedUsers_distinct (ledger : list Rating) :
  NoDup (submittedUsers ledger).
Proof. apply NoDup_setOf. Qed.

(** ** Aggregation *)

(** A dictionary filled key by key from a list holds, for each key of the
    list, the value computed for that key. *)
Lemma lookup_foldl_insert {V : Type} (f : string → V) (ks : list string)
    (m0 : gmap string V) (k : string) :
  foldl (λ acc k', <[k' := f k']> acc) m0 ks !! k
  = if decide (k ∈ ks) then Some (f k) else m0 !! k.
Proof.
  revert m0. induction ks as [|k' ks IH]; intros m0; cbn [foldl].
  - rewrite decide_False; [done | by apply not_elem_of_nil].
  - rewrite IH. destruct (decide (k ∈ ks)) as [Hin|Hin].
    + rewrite decide_True; [done | by right].
    + destruct (decide (k = k')) as [->|Hne].
      * rewrite decide_True by by left. apply lookup_insert_eq.
      * rewrite decide_False by (rewrite elem_of_cons; naive_solver).
        by apply lookup_insert_ne.
Qed.

Lemma playerResults_lookup (s : Session) (player tp : string) :
  tp ∈ topics s →
  topicAverages (playerResults s player) !! tp
  = Some (topicAverage (ratings s) player tp).
Proof.
  intros Htp. unfold playerResults. simpl.
  rewrite (lookup_foldl_insert (λ tp, topicAverage (ratings s) player tp)).
  by rewrite decide_True.
Qed.

Lemma elem_of_ratingsForTopic (ledger : list Rating) (player tp : string)
    (r : Rating) :
  r ∈ ratingsForTopic ledger player tp ↔
  r ∈ ledger ∧ target r = player ∧ topic r = tp ∧ rating r ≠ SKIPPED.
Proof.
  unfold ratingsForTopic. rewrite !list_elem_of_filter. naive_solver.
Qed.

(** In [emitResults] the average of a topic is the mean of the ratings that
    are not SKIPPED, and the marker ['No ratings'] when there is none. *)
Lemma topicAverage_mean (ledger : list Rating) (player tp : string) :
  ratingsForTopic ledger player tp ≠ [] →
  topicAverage ledger player tp
  = Js.Num (Js.mean (rating <$> ratingsForTopic ledger player tp)).
Proof.
  intros Hne. unfold topicAverage.
  rewrite bool_decide_true; [done|].
  destruct (ratingsForTopic ledger player tp); [done|simpl; lia].
Qed.

Lemma topicAverage_all_skipped (ledger : list Rating) (player tp : string) :
  (∀ r, r ∈ ledger → target r = player → topic r = tp → rating r = SKIPPED) →
  topicAverage ledger player tp = Js.Str "No ratings".
Proof.
  intros Hall. unfold topicAverage.
  destruct (ratingsForTopic ledger player tp) as [|r rs] eqn:E; [done|].
  assert (r ∈ ratingsForTopic ledger player tp) as Hr by (rewrite E; by left).
  apply elem_of_ratingsForTopic in Hr as (? & ? & ? & Hskip).
  destruct Hskip. by apply Hall.
Qed.

(** C5. The late-joiner delivery of [joinSession] does not aggregate the
    way [emitResults] does.  Dave has received, for "clarity", the ratings
    4, 2 and SKIPPED, and for "pace" only SKIPPED.  [emitResults] reports
    the mean 3 of the two given ratings and the marker ['No ratings'];
    the payload [joinSession] sends Dave reports (4 + 2 - 1) / 3 = 5/3 and
    the number -1. *)
Theorem joinSession_average_counts_skipped :
  (∃ res,
     j_emits (joinSession threeOfFourSubmitted "tok-dave" false)
     = [ToSocket (PSessionData (sessionData (Some "dave") threeOfFourSubmitted));
        ToSocket (PAnonResults "dave" (Some res))]
     ∧ topicAverages res !! "clarity" = Some (Js.Num (5 # 3))
     ∧ topicAverages res !! "pace" = Some (Js.Num (-1 # 1)))
  ∧ topicAverage (ratings threeOfFourSubmitted) "dave" "clarity"
    = Js.Num (3 # 1)
  ∧ topicAverage (ratings threeOfFourSubmitted) "dave" "pace"
    = Js.Str "No ratings".
Proof.
  split; [|split; reflexivity].
  eexists. split; [reflexivity|]. split; vm_compute; reflexivity.
Qed.

(** A topic nobody rated is reported to a late joiner as the number 0. *)
Lemma lateTopicAverage_no_rating (ledger : list Rating) (username tp : string) :
  (∀ r, r ∈ ledger → target r = username → topic r ≠ tp) →
  lateTopicAverage ledger username tp = Js.Num 0.
Proof.
  intros Hno. unfold lateTopicAverage.
  destruct (filter (λ r, topic r = tp) (filter (λ r, target r = username) ledger))
    as [|r rs] eqn:E; [done|].
  assert (r ∈ filter (λ r, topic r = tp)
                (filter (λ r, target r = username) ledger)) as Hr
    by (rewrite E; by left).
  rewrite !list_elem_of_filter in Hr. destruct Hr as (? & ? & ?).
  by destruct (Hno r).
Qed.

(** ** The completion check *)

(** The check waits exactly when a mode that requires it is on and the
    distinct raters are fewer than the non-admin players. *)
Lemma emitResults_cases (s : Session) (sid : string) :
  emitResults s sid
  = if (isGameMode s || isAnonymous s)
       && bool_decide (length (submittedUsers (ratings s))
                       < length (nonAdmin (players s)))%nat
    then (s, [])
    else reveal s sid (nonAdmin (players s)).
Proof.
  unfold emitResults.
  destruct (isGameMode s), (isAnonymous s), (bool_decide _); done.
Qed.

Lemma reveal_phase (s : Session) (sid : string) (ps : list string) :
  phase (reveal s sid ps).1 = "results".
Proof. unfold reveal. by case_match. Qed.

(** In public mode every call reveals: there is no check at all. *)
Lemma emitResults_public (s : Session) (sid : string) :
  isAnonymous s = false → isGameMode s = false →
  emitResults s sid
  = (set_phase "results" s, [ToRoom sid (PPublicResults (ratings s))]).
Proof.
  intros Ha Hg. rewrite emitResults_cases, Ha, Hg. simpl.
  unfold reveal. simpl. by rewrite Ha.
Qed.

(** C1. In public mode the first submission already moves the phase to
    ['results']: after [alice] alone has submitted, [bob] and [carol] are
    still unsubmitted, the full ledger is broadcast to the room and the
    saved phase is ['results']. *)
Theorem public_first_submission_sets_results :
  let r := submitRatings (sampleSession ["alice"; "bob"; "carol"] false false [])
             "s1" "alice" [rate "bob" 4 5; rate "carol" 3 3] in
  phase r.1 = "results"
  ∧ unsubmitted r.1 = ["bob"; "carol"]
  ∧ r.2 = [ToRoom "s1" (PPublicResults (ratings r.1));
           ToRoom "s1" (PRatingsUpdated "alice")].
Proof. vm_compute. done. Qed.

(** The second copy of [emitResults] does what the first misses: in public
    mode, after a submission by a rater with a non-empty name, it sends the
    ledger to the room and leaves the session, its phase included, as it
    was. *)
Lemma second_copy_public_keeps_phase (s : Session) (sid u : string) :
  isGameMode s = false → isAnonymous s = false →
  last (submittedUsers (ratings s)) = Some u → u ≠ "" →
  SecondCopy.emitResults s sid
  = (s, [(sid, SecondCopy.PPublic (Some u) (ratings s))]).
Proof.
  intros Hg Ha Hlast Hu. unfold SecondCopy.emitResults.
  rewrite Hg, Ha, Hlast. unfold Js.truthy. by rewrite bool_decide_true.
Qed.

Lemma second_copy_public_first_submission :
  SecondCopy.emitResults
    (set_ratings (newRatings "alice" [rate "bob" 4 5; rate "carol" 3 3])
       (sampleSession ["alice"; "bob"; "carol"] false false [])) "s1"
  = (set_ratings (newRatings "alice" [rate "bob" 4 5; rate "carol" 3 3])
       (sampleSession ["alice"; "bob"; "carol"] false false []),
     [("s1", SecondCopy.PPublic (Some "alice")
               (newRatings "alice" [rate "bob" 4 5; rate "carol" 3 3]))]).
Proof. reflexivity. Qed.

(** When every rater of the ledger is a non-admin player and the player
    names are distinct, counting raters is the same as asking that every
    non-admin player has submitted. *)
Lemma count_check_iff_all_submitted (s : Session) :
  NoDup (nonAdmin (players s)) →
  (∀ r, r ∈ ratings s → rater r ∈ nonAdmin (players s)) →
  (length (nonAdmin (players s)) ≤ length (submittedUsers (ratings s)))%nat
  ↔ ∀ p, p ∈ nonAdmin (players s) → p ∈ submittedUsers (ratings s).
Proof.
  intros Hnd Hraters. split.
  - intros Hlen p Hp. apply list_elem_of_In.
    apply (@NoDup_length_incl string (submittedUsers (ratings s))
             (nonAdmin (players s))).
    + apply NoDup_ListNoDup, submittedUsers_distinct.
    + done.
    + intros u Hu. apply list_elem_of_In.
      apply list_elem_of_In, elem_of_submittedUsers in Hu as (r & Hr & <-).
      by apply Hraters.
    + by apply list_elem_of_In.
  - intros Hall. apply submseteq_length, NoDup_submseteq; done.
Qed.

Lemma emitResults_reveals_iff_all_submitted (s : Session) (sid : string) :
  isGameMode s = true ∨ isAnonymous s = true →
  NoDup (nonAdmin (players s)) →
  (∀ r, r ∈ ratings s → rater r ∈ nonAdmin (players s)) →
  (emitResults s sid = reveal s sid (nonAdmin (players s))
   ∧ ∀ p, p ∈ nonAdmin (players s) → p ∈ submittedUsers (ratings s))
  ∨ (emitResults s sid = (s, [])
     ∧ ∃ p, p ∈ nonAdmin (players s) ∧ p ∉ submittedUsers (ratings s)).
Proof.
  intros Hmode Hnd Hraters. rewrite emitResults_cases.
  assert (isGameMode s || isAnonymous s = true) as ->
    by (destruct Hmode as [-> | ->]; by rewrite ?orb_true_r).
  simpl. case_bool_decide as Hlt.
  - right. split; [done|].
    destruct (decide (Forall (λ p, p ∈ submittedUsers (ratings s))
                        (nonAdmin (players s)))) as [Hall|Hnot].
    + rewrite Forall_forall in Hall.
      apply (count_check_iff_all_submitted s Hnd Hraters) in Hall. lia.
    + apply not_Forall_Exists in Hnot; [|solve_decision].
      apply Exists_exists in Hnot. naive_solver.
  - left. split; [done|].
    apply (count_check_iff_all_submitted s Hnd Hraters). lia.
Qed.

(** C3. The completion check counts distinct raters; it does not ask who
    they are.  In a game-mode session of [alice] and [bob], once [alice] and
    a caller naming itself [zoe] have submitted, two raters are counted for
    two players: the phase is ['results'] and the ledger is broadcast although
    [bob] has submitted nothing.  The same happens when a participant is
    named [admin]: [admin] and [bob] have rated, [carol] has not, and the
    check reveals. *)
Theorem game_mode_reveals_before_all_submitted :
  (phase aliceThenOutsider = "results"
   ∧ "bob" ∈ nonAdmin (players aliceThenOutsider)
   ∧ ("bob" ∉ submittedUsers (ratings aliceThenOutsider))
   ∧ emitResults aliceThenOutsider "s1"
     = (aliceThenOutsider,
        [ToRoom "s1" (PPublicResults (ratings aliceThenOutsider))]))
  ∧ (phase (emitResults adminAndBobRated "s1").1 = "results"
     ∧ "carol" ∈ nonAdmin (players adminAndBobRated)
     ∧ ("carol" ∉ submittedUsers (ratings adminAndBobRated))
     ∧ (emitResults adminAndBobRated "s1").2
       = [ToRoom "s1" (PPublicResults (ratings adminAndBobRated))]).
Proof.
  split; split_and!; by_computation.
Qed.

(** ** Creating a session *)








(** ** Results in anonymous mode *)







(** ** Restarting the timer *)

Lemma fire_pending (w : Server) (k : nat) (t : Timeout) (j : nat)
    (s0 : Session) :
  timeouts w !! k = Some t →
  findOne (t_sessionId t) (store w) = Some (j, s0) →
  fire w k
  = (mkServer (<[j := (timerExpired s0 (t_sessionId t)).1]> (store w))
       (rooms w) (socketUser w) (delete k (timeouts w)),
     (timerExpired s0 (t_sessionId t)).2).
Proof.
  intros Hk Hfind. unfold fire. rewrite Hk, Hfind.
  by destruct (timerExpired s0 (t_sessionId t)).
Qed.

Lemma handle_startTimer (url : string) (w : Server) (sock : nat)
    (sid : string) (now : Z) (i : nat) (s : Session) :
  findOne sid (store w) = Some (i, s) →
  handle url w sock (MStartTimer sid now)
  = (mkServer (<[i := set_timerStart now s]> (store w)) (rooms w)
       (socketUser w) (timeouts w ++ [mkTimeout sid now (timer s * 1000)]),
     [ToRoom sid (PTimerStarted (timer s) now)]).
Proof. intros Hfind. simpl. by rewrite Hfind. Qed.

(** A callback that finds the phase ['results'], or nobody unsubmitted,
    leaves the collection as it is and sends nothing. *)
Lemma fire_keeps_store (w : Server) (k : nat) (t : Timeout) (j : nat)
    (s0 : Session) :
  timeouts w !! k = Some t →
  findOne (t_sessionId t) (store w) = Some (j, s0) →
  phase s0 = "results" ∨ unsubmitted s0 = [] →
  store (fire w k).1 = store w ∧ (fire w k).2 = [].
Proof.
  intros Hk Hfind Hquiet. rewrite (fire_pending w k t j s0 Hk Hfind).
  assert (timerExpired s0 (t_sessionId t) = (s0, [])) as ->.
  { unfold timerExpired. destruct Hquiet as [Hphase|Hnone].
    - rewrite (bool_decide_false (phase s0 ≠ "results")) by naive_solver.
      by rewrite andb_false_r.
    - by rewrite Hnone. }
  simpl. split; [|done]. apply list_insert_id.
  by apply findOne_Some in Hfind as [? _].
Qed.

(** C4. [startTimer] on a session that is found, started before or not,
    saves [timerStarted = true] and [startTime = now] and registers one more
    callback; the callbacks registered by earlier calls stay pending.  Every
    pending callback, whatever start time it was registered with, does the
    same thing when it runs: it applies the expiry step to the session as
    stored at that moment.  There is no staleness check. *)
Theorem startTimer_restart_keeps_earlier_callbacks
    (url : string) (w : Server) (sock : nat) (sid : string) (now : Z)
    (i : nat) (s : Session) :
  findOne sid (store w) = Some (i, s) →
  findOne sid (store (handle url w sock (MStartTimer sid now)).1)
    = Some (i, set_timerStart now s)
  ∧ timeouts (handle url w sock (MStartTimer sid now)).1
    = timeouts w ++ [mkTimeout sid now (timer s * 1000)]
  ∧ ∀ k t j s0,
      timeouts (handle url w sock (MStartTimer sid now)).1 !! k = Some t →
      findOne (t_sessionId t)
        (store (handle url w sock (MStartTimer sid now)).1) = Some (j, s0) →
      store (fire (handle url w sock (MStartTimer sid now)).1 k).1
        = <[j := (timerExpired s0 (t_sessionId t)).1]>
            (store (handle url w sock (MStartTimer sid now)).1)
      ∧ (fire (handle url w sock (MStartTimer sid now)).1 k).2
        = (timerExpired s0 (t_sessionId t)).2.
Proof.
  intros Hfind. rewrite (handle_startTimer url w sock sid now i s Hfind).
  split_and!.
  - apply findOne_insert with s; [done|].
    by apply findOne_Some in Hfind as [_ ?].
  - done.
  - intros k t j s0 Hk Hj. by rewrite (fire_pending _ k t j s0 Hk Hj).
Qed.

Lemma startTimer_restart_keeps_earlier_callbacks_witness :
  findOne "s1" (store (handle "" startedOnce 0 (MStartTimer "s1" 5000)).1)
    = Some (0%nat, set_timerStart 5000 (set_timerStart 1000 onlyAliceSubmitted))
  ∧ timeouts (handle "" startedOnce 0 (MStartTimer "s1" 5000)).1
    = [mkTimeout "s1" 1000 30000; mkTimeout "s1" 5000 30000].
Proof.
  destruct (startTimer_restart_keeps_earlier_callbacks "" startedOnce 0 "s1"
              5000 0 (set_timerStart 1000 onlyAliceSubmitted))
    as (Hstore & Hpending & _); [reflexivity|].
  split; [exact Hstore | exact Hpending].
Defined.

(** After a restart two callbacks are pending.  The first is stale: the
    session's start time is no longer the one it was registered with.  When
    it runs it fills the ledger with SKIPPED tuples all the same. *)
Lemma stale_callback_fills_the_ledger :
  length (timeouts restartedTimer) = 2%nat
  ∧ ∃ t, timeouts restartedTimer !! 0%nat = Some t
         ∧ stale restartedTimer t
         ∧ (ratings <$> store (fire restartedTimer 0).1)
           ≠ (ratings <$> store restartedTimer)
         ∧ mkRating "bob" "alice" "clarity" SKIPPED
             ∈ concat (ratings <$> store (fire restartedTimer 0).1).
Proof.
  split; [reflexivity|].
  exists (mkTimeout "s1" 1000 30000). split_and!.
  - reflexivity.
  - exists 0%nat, (set_timerStart 5000 (set_timerStart 1000 onlyAliceSubmitted)).
    split; [reflexivity | discriminate].
  - intros Heq. apply (f_equal (fmap length)) in Heq.
    vm_compute in Heq. discriminate.
  - by_computation.
Qed.

(** ** Membership of the ledger's names *)

Lemma ledgerOk_same (s s' : Session) :
  players s' = players s → topics s' = topics s → ratings s' = ratings s →
  ledgerOk s → ledgerOk s'.
Proof. unfold ledgerOk. by intros -> -> ->. Qed.

Lemma emitResults_players_topics (s : Session) (sid : string) :
  players (emitResults s sid).1 = players s
  ∧ topics (emitResults s sid).1 = topics s.
Proof. by destruct (emitResults_frame s sid) as [-> | ->]. Qed.

Lemma ledgerOk_emitResults (s : Session) (sid : string) :
  ledgerOk s → ledgerOk (emitResults s sid).1.
Proof.
  destruct (emitResults_players_topics s sid) as [Hp Ht].
  apply ledgerOk_same; [done..|apply emitResults_ratings].
Qed.

Lemma ledgerOk_submitRatings (s : Session) (sid username : string)
    (submitted : list (string * list (string * Z))) :
  ledgerOk s → validSubmission s username submitted →
  ledgerOk (submitRatings s sid username submitted).1.
Proof.
  intros Hok [Hu Hsub]. unfold submitRatings.
  pose proof (ledgerOk_emitResults
                (set_ratings
                   (replaceRatings (ratings s) username
                      (newRatings username submitted)) s) sid) as Hemit.
  destruct (emitResults _ sid) as [s2 out]. simpl in *. apply Hemit.
  unfold ledgerOk, replaceRatings. simpl. apply Forall_app. split.
  - apply Forall_forall. intros r Hr.
    apply list_elem_of_filter in Hr as [_ Hr].
    unfold ledgerOk in Hok. rewrite Forall_forall in Hok. by apply Hok.
  - apply Forall_forall. intros r Hr.
    apply elem_of_newRatings in Hr as (tgt & byTopic & tp & v & Hin & Hin' & ->).
    rewrite Forall_forall in Hsub. destruct (Hsub _ Hin) as [Htgt Htps].
    rewrite Forall_forall in Htps. specialize (Htps _ Hin'). done.
Qed.

Lemma ledgerOk_timerExpired (s : Session) (sid : string) :
  ledgerOk s → ledgerOk (timerExpired s sid).1.
Proof.
  intros Hok. unfold timerExpired. case_match; [|done].
  apply ledgerOk_emitResults. unfold ledgerOk. simpl.
  destruct (autoFill_spec (unsubmitted s) (nonAdmin (players s)) (topics s)
              (unsubmitted s) (ratings s)) as (added & -> & Hadd & _).
  - done.
  - intros r Hr Hu. apply unsubmitted_spec in Hu as (_ & _ & Hu).
    by destruct (Hu r Hr).
  - apply Forall_app. split; [done|].
    eapply Forall_impl; [exact Hadd|]. simpl.
    intros r (Hu & Htgt & _ & Htp & _).
    apply unsubmitted_spec in Hu as (Hu & _).
    apply list_elem_of_filter in Htgt as [_ Htgt]. done.
Qed.

Lemma step_ledgerOk (url : string) (w : Server) (e : Event) :
  Forall ledgerOk (store w) → eventOk w e →
  Forall ledgerOk (store (step url w e)).
Proof.
  intros Hall He. destruct e as [sock m|k]; simpl.
  - destruct m as [data sid tokenOf|sid token isAdmin|sid now
                   |sid username submitted]; simpl.
    + destruct (createSession url data sid tokenOf) as [[s|] out] eqn:E;
        [|done].
      simpl. apply Forall_app. split; [done|].
      apply Forall_singleton. unfold createSession in E.
      repeat case_match; simplify_eq. by constructor.
    + by destruct (findOne sid (store w)) as [[i s]|].
    + destruct (findOne sid (store w)) as [[i s]|] eqn:E; [|done].
      simpl. apply Forall_insert; [done|].
      apply findOne_Some in E as [Hi _].
      rewrite Forall_forall in Hall.
      apply (ledgerOk_same s); [done..|].
      apply Hall. by eapply list_elem_of_lookup_2.
    + destruct (findOne sid (store w)) as [[i s]|] eqn:E; [|done].
      pose proof (ledgerOk_submitRatings s sid username submitted) as Hsub.
      destruct (submitRatings s sid username submitted) as [s' out].
      simpl in *. apply Forall_insert; [done|].
      apply Hsub; [|by eapply He].
      apply findOne_Some in E as [Hi _].
      rewrite Forall_forall in Hall. apply Hall.
      by eapply list_elem_of_lookup_2.
  - unfold fire. destruct (timeouts w !! k) as [t|]; [|done].
    destruct (findOne (t_sessionId t) (store w)) as [[i s]|] eqn:E; [|done].
    pose proof (ledgerOk_timerExpired s (t_sessionId t)) as Hexp.
    destruct (timerExpired s (t_sessionId t)) as [s' out].
    simpl in *. apply Forall_insert; [done|]. apply Hexp.
    apply findOne_Some in E as [Hi _].
    rewrite Forall_forall in Hall. apply Hall.
    by eapply list_elem_of_lookup_2.
Qed.

(** C9. [submitRatings] stores the rater, the targets and the topics it is
    given without checking them.  So the membership of every tuple's rater
    and target in the participants and of its topic in the topics is kept by
    every run of the server (sessions created, joined, timers started and
    expired, ratings submitted) in which each submission names a participant
    as rater, participants as targets and topics of the session; the tuples
    the timer adds always satisfy it. *)
Theorem ledger_names_kept_by_valid_runs
    (url : string) (w : Server) (es : list Event) :
  Forall ledgerOk (store w) →
  traceOk url w es →
  Forall ledgerOk (store (run url w es)).
Proof.
  revert w. induction es as [|e es IH]; intros w Hall Htrace; [done|].
  destruct Htrace as [He Hrest]. simpl.
  apply IH; [|done]. by apply step_ledgerOk.
Qed.

Lemma ledger_names_kept_by_valid_runs_witness :
  Forall ledgerOk (store (run "" emptyServer ordinaryRun)).
Proof.
  apply (ledger_names_kept_by_valid_runs "" emptyServer ordinaryRun).
  - constructor.
  - simpl. split_and!; try exact I.
    intros i s Hfind. vm_compute in Hfind.
    injection Hfind as <- <-. by_computation.
Defined.

(** After a submission that names outsiders the ledger holds a tuple whose
    rater and target are no participants and whose topic is no topic of the
    session. *)
Lemma outsider_tuple_enters_the_ledger :
  ¬ Forall ledgerOk (store outsiderSubmits)
  ∧ ∃ s, findOne "s1" (store outsiderSubmits) = Some (0%nat, s)
         ∧ mkRating "zoe" "nobody" "speed" 5 ∈ ratings s
         ∧ ("zoe" ∉ players s) ∧ ("nobody" ∉ players s)
         ∧ ("speed" ∉ topics s).
Proof.
  split; [by_computation|].
  eexists. split; [vm_compute; reflexivity|].
  split_and!; by_computation.
Qed.

(** ** Worked examples *)

Example trim_example : Js.trim "  Bob Ross  " = "Bob Ross".
Proof. reflexivity. Qed.

Example trim_blank : Js.trim "   " = "".
Proof. reflexivity. Qed.

Example toLowerCase_example : Js.toLowerCase "BoB-42" = "bob-42".
Proof. reflexivity. Qed.

Example setOf_example : Js.setOf ["b"; "a"; "b"; "c"; "a"] = ["b"; "a"; "c"].
Proof. reflexivity. Qed.

Example mean_example : Js.mean [4; 2; 3] = 3 # 1.
Proof. reflexivity. Qed.

Example uniquePlayers_example :
  uniquePlayers ["Ann"; " ann"; "Bob"] = ["ann"; "bob"].
Proof. reflexivity. Qed.

(** Once the fourth player of an anonymous session has submitted, the phase
    is ['results'] and [alice] is reported the mean of the ratings given to
    her. *)
Example anonymous_all_submitted :
  phase fourSubmitted = "results"
  ∧ topicAverages (playerResults fourSubmitted "alice") !! "clarity"
    = Some (Js.Num (5 # 1))
  ∧ topicAverages (playerResults fourSubmitted "dave") !! "pace"
    = Some (Js.Str "No ratings").
Proof. split_and!; vm_compute; reflexivity. Qed.

(** With three of four submissions the anonymous session waits. *)
Example anonymous_waits :
  emitResults threeOfFourSubmitted "s1" = (threeOfFourSubmitted, []).
Proof. reflexivity. Qed.

(** The expiry of the timer on the session where only [alice] submitted:
    eight SKIPPED tuples are added, four of [bob] and four of [carol]. *)
Example timerExpired_example :
  ratings (timerExpired onlyAliceSubmitted "s1").1
  = ratings onlyAliceSubmitted
    ++ [mkRating "bob" "alice" "clarity" SKIPPED;
        mkRating "bob" "alice" "pace" SKIPPED;
        mkRating "bob" "carol" "clarity" SKIPPED;
        mkRating "bob" "carol" "pace" SKIPPED;
        mkRating "carol" "alice" "clarity" SKIPPED;
        mkRating "carol" "alice" "pace" SKIPPED;
        mkRating "carol" "bob" "clarity" SKIPPED;
        mkRating "carol" "bob" "pace" SKIPPED].
Proof. reflexivity. Qed.

(** * Further properties of the handlers *)

(** ** The completion check, called again *)

Lemma reveal_session (s : Session) (sid : string) (ps : list string) :
  (reveal s sid ps).1 = set_phase "results" s.
Proof. unfold reveal. by case_match. Qed.

Lemma reveal_again (s : Session) (sid : string) (ps : list string) :
  reveal (set_phase "results" s) sid ps = reveal s sid ps.
Proof. reflexivity. Qed.

(** X1. Calling [emitResults] again on the session it has just saved sends the
    same messages and saves the same session: the check has no memory beyond
    the phase, and the phase is not read. *)
Theorem emitResults_idempotent (s : Session) (sid : string) :
  emitResults (emitResults s sid).1 sid = emitResults s sid.
Proof.
  rewrite (emitResults_cases s).
  destruct ((isGameMode s || isAnonymous s)
            && bool_decide (length (submittedUsers (ratings s))
                            < length (nonAdmin (players s)))%nat) eqn:E.
  - simpl. by rewrite emitResults_cases, E.
  - rewrite reveal_session, emitResults_cases.
    change ((isGameMode (set_phase "results" s)
             || isAnonymous (set_phase "results" s))
            && bool_decide
                 (length (submittedUsers (ratings (set_phase "results" s)))
                  < length (nonAdmin (players (set_phase "results" s))))%nat)
      with ((isGameMode s || isAnonymous s)
            && bool_decide (length (submittedUsers (ratings s))
                            < length (nonAdmin (players s)))%nat).
    rewrite E. apply reveal_again.
Qed.

(** ** Submissions composed *)

Lemma replaceRatings_twice (ledger : list Rating) (R : string)
    (a b : list Rating) :
  Forall (λ r, rater r = R) a →
  replaceRatings (replaceRatings ledger R a) R b = replaceRatings ledger R b.
Proof.
  intros Ha. unfold replaceRatings at 1.
  by rewrite (replaceRatings_others ledger R a Ha).
Qed.

(** X2. The last submission of a rater wins: submitting [a] and then [b] leaves
    the ledger that submitting [b] alone leaves. *)
Theorem submitRatings_last_wins (s : Session) (sid R : string)
    (a b : list (string * list (string * Z))) :
  ratings (submitRatings (submitRatings s sid R a).1 sid R b).1
  = ratings (submitRatings s sid R b).1.
Proof.
  rewrite !submitRatings_ratings.
  apply replaceRatings_twice, newRatings_rater.
Qed.

(** X3. After a submission the submitting rater counts as submitted exactly
    when the submitted object held at least one rating: an empty object
    withdraws the rater.  Whether any other rater counts as submitted does
    not change. *)
Theorem submitRatings_submitted_status (s : Session) (sid R : string)
    (submitted : list (string * list (string * Z))) :
  (R ∈ submittedUsers (ratings (submitRatings s sid R submitted).1)
   ↔ newRatings R submitted ≠ [])
  ∧ ∀ u, u ≠ R →
      (u ∈ submittedUsers (ratings (submitRatings s sid R submitted).1)
       ↔ u ∈ submittedUsers (ratings s)).
Proof.
  rewrite submitRatings_ratings. unfold replaceRatings.
  pose proof (newRatings_rater R submitted) as Hnew.
  rewrite Forall_forall in Hnew. split.
  - rewrite elem_of_submittedUsers. split.
    + intros (r & Hr & HR) Hnil.
      apply elem_of_app in Hr as [Hr|Hr].
      * apply list_elem_of_filter in Hr as [Hne _]. done.
      * rewrite Hnil in Hr. by apply elem_of_nil in Hr.
    + intros Hne. destruct (newRatings R submitted) as [|r rs] eqn:E; [done|].
      exists r. split.
      * apply elem_of_app. right. by left.
      * apply Hnew. by left.
  - intros u Hu. rewrite !elem_of_submittedUsers. split.
    + intros (r & Hr & Hru). exists r. split; [|done].
      apply elem_of_app in Hr as [Hr|Hr].
      * by apply list_elem_of_filter in Hr as [_ ?].
      * apply Hnew in Hr. congruence.
    + intros (r & Hr & Hru). exists r. split; [|done].
      apply elem_of_app. left. apply list_elem_of_filter.
      split; [congruence|done].
Qed.

(** ** Stored sessions along a run *)

Lemma sameConfig_refl (s : Session) : sameConfig s s.
Proof. by repeat split. Qed.

Lemma sameConfig_trans (s1 s2 s3 : Session) :
  sameConfig s1 s2 → sameConfig s2 s3 → sameConfig s1 s3.
Proof.
  unfold sameConfig. intros (? & ? & ? & ? & ? & ? & ? & ?)
    (? & ? & ? & ? & ? & ? & ? & ?). split_and!; congruence.
Qed.

Lemma evolves_refl (s : Session) : evolves s s.
Proof. split; [apply sameConfig_refl | by left]. Qed.

Lemma evolves_trans (s1 s2 s3 : Session) :
  evolves s1 s2 → evolves s2 s3 → evolves s1 s3.
Proof.
  intros [Hc1 Hp1] [Hc2 Hp2]. split; [by eapply sameConfig_trans|].
  destruct Hp2 as [Hp2|Hp2]; [rewrite Hp2; exact Hp1 | by right].
Qed.

Lemma evolves_emitResults (s : Session) (sid : string) :
  evolves s (emitResults s sid).1.
Proof.
  destruct (emitResults_frame s sid) as [-> | ->];
    [apply evolves_refl|]. split; [by repeat split | by right].
Qed.

Lemma evolves_submitRatings (s : Session) (sid username : string)
    (submitted : list (string * list (string * Z))) :
  evolves s (submitRatings s sid username submitted).1.
Proof.
  unfold submitRatings.
  pose proof (evolves_emitResults
                (set_ratings
                   (replaceRatings (ratings s) username
                      (newRatings username submitted)) s) sid) as Hemit.
  destruct (emitResults _ sid) as [s2 out]. simpl in *.
  eapply evolves_trans; [|exact Hemit].
  split; [by repeat split | by left].
Qed.

Lemma evolves_timerExpired (s : Session) (sid : string) :
  evolves s (timerExpired s sid).1.
Proof.
  unfold timerExpired. case_match; [|apply evolves_refl].
  eapply evolves_trans; [|apply evolves_emitResults].
  split; [by repeat split | by left].
Qed.

(** What a step does to the document at a position of the collection: it
    leaves it, or replaces it by the session a handler computed from it. *)
Lemma step_store_rel (Rel : Session → Session → Prop)
    (url : string) (w : Server) (e : Event) (i : nat) (s : Session) :
  (∀ s0, Rel s0 s0) →
  (∀ s0 now, Rel s0 (set_timerStart now s0)) →
  (∀ s0 sock sid u sub,
     e = EMsg sock (MSubmitRatings sid u sub) →
     Rel s0 (submitRatings s0 sid u sub).1) →
  (∀ s0 sid, Rel s0 (timerExpired s0 sid).1) →
  store w !! i = Some s →
  ∃ s', store (step url w e) !! i = Some s' ∧ Rel s s'.
Proof.
  intros Hrefl Hstart Hsubmit Hexpire Hi.
  assert (∀ j sj s', store w !! j = Some sj → Rel sj s' →
            ∃ s'', <[j := s']> (store w) !! i = Some s'' ∧ Rel s s'')
    as Hins.
  { intros j sj s' Hj Hrel. destruct (decide (i = j)) as [->|Hne].
    - exists s'. rewrite list_lookup_insert_eq by by eapply lookup_lt_Some.
      split; [done|]. by simplify_eq.
    - exists s. by rewrite list_lookup_insert_ne. }
  destruct e as [sock m|k]; simpl.
  - destruct m as [data sid tokenOf|sid token isAdmin|sid now
                   |sid username submitted]; simpl.
    + destruct (createSession url data sid tokenOf) as [[s0|] out];
        simpl; [|by eauto].
      exists s. split; [|done]. by apply lookup_app_l_Some.
    + destruct (findOne sid (store w)) as [[j sj]|]; simpl; by eauto.
    + destruct (findOne sid (store w)) as [[j sj]|] eqn:E; simpl; [|by eauto].
      apply findOne_Some in E as [Hj _]. by eapply Hins.
    + destruct (findOne sid (store w)) as [[j sj]|] eqn:E; simpl; [|by eauto].
      pose proof (Hsubmit sj sock sid username submitted eq_refl) as Hrel.
      destruct (submitRatings sj sid username submitted) as [s' out].
      simpl in *. apply findOne_Some in E as [Hj _]. by eapply Hins.
  - unfold fire. destruct (timeouts w !! k) as [t|]; [|by eauto].
    destruct (findOne (t_sessionId t) (store w)) as [[j sj]|] eqn:E;
      simpl; [|by eauto].
    pose proof (Hexpire sj (t_sessionId t)) as Hrel.
    destruct (timerExpired sj (t_sessionId t)) as [s' out].
    simpl in *. apply findOne_Some in E as [Hj _]. by eapply Hins.
Qed.

(** X4. Whatever messages arrive and whatever callbacks run, a stored session
    stays at its position with its identifier, players, topics, tokens, mode
    flags and timer length, and its phase only ever changes to ['results']:
    once ['results'], always ['results']. *)
Theorem run_keeps_configuration_and_results
    (url : string) (es : list Event) (w : Server) (i : nat) (s : Session) :
  store w !! i = Some s →
  ∃ s', store (run url w es) !! i = Some s'
        ∧ sameConfig s s'
        ∧ (phase s = "results" → phase s' = "results").
Proof.
  revert w s. induction es as [|e es IH]; intros w s Hi; simpl.
  - exists s. split_and!; [done|apply sameConfig_refl|done].
  - destruct (step_store_rel evolves url w e i s) as (s1 & H1 & Hc1 & Hp1);
      [apply evolves_refl
      |by intros; split; [repeat split | left]
      |by intros; apply evolves_submitRatings
      |by intros; apply evolves_timerExpired
      |done|].
    destruct (IH _ _ H1) as (s' & Hs' & Hc' & Hp').
    exists s'. split_and!; [done|by eapply sameConfig_trans|].
    intros Hres. apply Hp'. destruct Hp1 as [Hp1|Hp1]; congruence.
Qed.

Lemma run_keeps_configuration_and_results_witness :
  ∃ s', store (run "" (sampleServer onlyAliceSubmitted) timedRun) !! 0%nat
        = Some s'
        ∧ sameConfig onlyAliceSubmitted s'
        ∧ (phase onlyAliceSubmitted = "results" → phase s' = "results").
Proof.
  apply (run_keeps_configuration_and_results "" timedRun
           (sampleServer onlyAliceSubmitted) 0 onlyAliceSubmitted).
  reflexivity.
Defined.

Lemma phaseOk_evolves (s s' : Session) :
  evolves s s' → phaseOk s → phaseOk s'.
Proof.
  unfold phaseOk. intros [_ [Hp|Hp]] Hok; [by rewrite Hp | by right].
Qed.

Lemma step_phaseOk (url : string) (w : Server) (e : Event) :
  Forall phaseOk (store w) → Forall phaseOk (store (step url w e)).
Proof.
  intros Hall. apply Forall_lookup. intros i s' Hi.
  destruct (store w !! i) as [s|] eqn:Hold.
  - destruct (step_store_rel evolves url w e i s) as (s1 & H1 & Hev);
      [apply evolves_refl
      |by intros; split; [repeat split | left]
      |by intros; apply evolves_submitRatings
      |by intros; apply evolves_timerExpired
      |done|].
    simplify_eq. eapply phaseOk_evolves; [exact Hev|].
    by eapply Forall_lookup_1.
  - destruct e as [sock m|k]; simpl in Hi.
    + destruct m as [data sid tokenOf|sid token isAdmin|sid now
                     |sid username submitted]; simpl in Hi.
      * destruct (createSession url data sid tokenOf) as [[s0|] out] eqn:E;
          simpl in Hi; [|congruence].
        apply lookup_app_Some in Hi as [Hi|[_ Hi]]; [congruence|].
        apply list_lookup_singleton_Some in Hi as [_ <-].
        unfold createSession in E. repeat case_match; simplify_eq. by left.
      * destruct (findOne sid (store w)) as [[j sj]|]; simpl in Hi; congruence.
      * destruct (findOne sid (store w)) as [[j sj]|]; simpl in Hi;
          [|congruence].
        apply lookup_lt_Some in Hi. rewrite length_insert in Hi.
        apply lookup_ge_None in Hold. lia.
      * destruct (findOne sid (store w)) as [[j sj]|]; simpl in Hi;
          [|congruence].
        destruct (submitRatings sj sid username submitted) as [s2 out].
        simpl in Hi. apply lookup_lt_Some in Hi. rewrite length_insert in Hi.
        apply lookup_ge_None in Hold. lia.
    + unfold fire in Hi.
      destruct (timeouts w !! k) as [t|]; [|simpl in Hi; congruence].
      destruct (findOne (t_sessionId t) (store w)) as [[j sj]|];
        simpl in Hi; [|congruence].
      destruct (timerExpired sj (t_sessionId t)) as [s2 out].
      simpl in Hi. apply lookup_lt_Some in Hi. rewrite length_insert in Hi.
      apply lookup_ge_None in Hold. lia.
Qed.

(** X5. The only phases the handlers write are ['waiting'], at creation, and
    ['results']: if every stored session is in one of the two, this stays so
    along every run.  No handler ever writes ['active']. *)
Theorem run_phase_waiting_or_results
    (url : string) (es : list Event) (w : Server) :
  Forall phaseOk (store w) → Forall phaseOk (store (run url w es)).
Proof.
  revert w. induction es as [|e es IH]; intros w Hall; [done|].
  simpl. by apply IH, step_phaseOk.
Qed.

Lemma run_phase_waiting_or_results_witness :
  Forall phaseOk (store (run "" twoSessions timedRun)).
Proof.
  apply (run_phase_waiting_or_results "" timedRun twoSessions).
  repeat constructor; by left.
Defined.

(** ** Who can remove a tuple *)

Lemma timerExpired_appends (s : Session) (sid : string) :
  ∃ added, ratings (timerExpired s sid).1 = ratings s ++ added.
Proof.
  unfold timerExpired. case_match.
  - rewrite emitResults_ratings. simpl.
    destruct (autoFill_spec (unsubmitted s) (nonAdmin (players s)) (topics s)
                (unsubmitted s) (ratings s)) as (added & Heq & _); [done| |].
    + intros r Hr Hu. apply unsubmitted_spec in Hu as (_ & _ & Hu).
      by destruct (Hu r Hr).
    + by exists added.
  - exists []. by rewrite app_nil_r.
Qed.

(** X6. A tuple leaves the ledger only through a [submitRatings] sent in the
    name of its own rater: along a run without such a message every tuple of
    rater [R] stays in its session's ledger, whatever the others submit and
    whatever the timer does. *)
Theorem run_keeps_tuples_of_silent_rater
    (url : string) (R : string) (es : list Event) (w : Server) (i : nat)
    (s : Session) :
  store w !! i = Some s →
  Forall (λ e, ¬ submitsAs R e) es →
  ∃ s', store (run url w es) !! i = Some s'
        ∧ ∀ r, r ∈ ratings s → rater r = R → r ∈ ratings s'.
Proof.
  revert w s. induction es as [|e es IH]; intros w s Hi Hes; simpl.
  - by exists s.
  - apply Forall_cons in Hes as [He Hes].
    destruct (step_store_rel (keepsTuplesOf R) url w e i s)
      as (s1 & H1 & Hk1); [| | | |done|].
    + by intros s0 r.
    + by intros s0 now r.
    + intros s0 sock sid u sub -> r Hr HR.
      rewrite submitRatings_ratings. unfold replaceRatings.
      apply elem_of_app. left. apply list_elem_of_filter.
      split; [|done]. simpl in He. congruence.
    + intros s0 sid r Hr _.
      destruct (timerExpired_appends s0 sid) as [added ->].
      apply elem_of_app. by left.
    + destruct (IH _ _ H1 Hes) as (s' & Hs' & Hk').
      exists s'. split; [done|]. intros r Hr HR.
      apply Hk'; [|done]. by apply Hk1.
Qed.

Lemma run_keeps_tuples_of_silent_rater_witness :
  ∃ s', store (run "" (sampleServer onlyAliceSubmitted) timedRun) !! 0%nat
        = Some s'
        ∧ ∀ r, r ∈ ratings onlyAliceSubmitted → rater r = "alice" →
               r ∈ ratings s'.
Proof.
  apply (run_keeps_tuples_of_silent_rater "" "alice" timedRun
           (sampleServer onlyAliceSubmitted) 0 onlyAliceSubmitted).
  - reflexivity.
  - repeat constructor; simpl; (tauto || discriminate).
Defined.

(** ** Sessions do not interfere *)

Lemma findOne_app_other (sid' : string) (st : list Session) (s0 : Session) :
  sessionId s0 ≠ sid' → findOne sid' (st ++ [s0]) = findOne sid' st.
Proof.
  intros Hne. unfold findOne.
  destruct (list_find (λ s, sessionId s = sid') st) as [[i s]|] eqn:E.
  - by apply list_find_app_l.
  - rewrite list_find_app_r by done. simpl. by rewrite decide_False.
Qed.

Lemma createSession_sessionId (url : string) (data : CreateData)
    (sid : string) (tokenOf : nat → string) (s : Session) (out : list Emit) :
  createSession url data sid tokenOf = (Some s, out) → sessionId s = sid.
Proof.
  unfold createSession. intros E. by repeat case_match; simplify_eq.
Qed.

Lemma timerExpired_sessionId (s : Session) (sid : string) :
  sessionId (timerExpired s sid).1 = sessionId s.
Proof. by destruct (evolves_timerExpired s sid) as [(? & _) _]. Qed.

(** X7. An event addressed to one session leaves every other session as it
    is: what [findOne] returns for another identifier does not change. *)
Theorem step_leaves_other_sessions
    (url : string) (w : Server) (e : Event) (sid' : string) :
  eventSession w e ≠ Some sid' →
  findOne sid' (store (step url w e)) = findOne sid' (store w).
Proof.
  intros Hne. destruct e as [sock m|k]; simpl in *.
  - assert (msgSession m ≠ sid') as Hm by congruence. clear Hne.
    destruct m as [data sid tokenOf|sid token isAdmin|sid now
                   |sid username submitted]; simpl in *.
    + destruct (createSession url data sid tokenOf) as [[s0|] out] eqn:E;
        [|done].
      simpl. apply findOne_app_other.
      by rewrite (createSession_sessionId _ _ _ _ _ _ E).
    + by destruct (findOne sid (store w)) as [[j sj]|].
    + destruct (findOne sid (store w)) as [[j sj]|] eqn:E; [|done]. simpl.
      apply findOne_insert_other with sid sj; [done| |congruence].
      by apply findOne_Some in E as [_ ?].
    + destruct (findOne sid (store w)) as [[j sj]|] eqn:E; [|done].
      pose proof (submitRatings_sessionId sj sid username submitted) as Hid.
      destruct (submitRatings sj sid username submitted) as [s' out].
      simpl in *.
      apply findOne_insert_other with sid sj; [done| |congruence].
      rewrite Hid. by apply findOne_Some in E as [_ ?].
  - unfold fire. destruct (timeouts w !! k) as [t|]; [|done].
    simpl in Hne.
    destruct (findOne (t_sessionId t) (store w)) as [[j sj]|] eqn:E; [|done].
    pose proof (timerExpired_sessionId sj (t_sessionId t)) as Hid.
    destruct (timerExpired sj (t_sessionId t)) as [s' out]. simpl in *.
    apply findOne_insert_other with (t_sessionId t) sj; [done| |congruence].
    rewrite Hid. by apply findOne_Some in E as [_ ?].
Qed.

Lemma step_leaves_other_sessions_witness :
  findOne "s2" (store (step "" twoSessions (EFire 0)))
  = findOne "s2" (store twoSessions).
Proof.
  apply (step_leaves_other_sessions "" twoSessions (EFire 0) "s2").
  discriminate.
Defined.

(** ** Replies *)

Lemma emitResults_to_room (s : Session) (sid : string) (e : Emit) :
  e ∈ (emitResults s sid).2 → ∃ p, e = ToRoom sid p ∧ ∀ m, p ≠ PError m.
Proof.
  rewrite emitResults_cases. case_match; [by intros ?%elem_of_nil|].
  unfold reveal. case_match; simpl.
  - intros (p & -> & _)%list_elem_of_fmap. by eexists.
  - intros ->%list_elem_of_singleton. by eexists.
Qed.

Lemma lateJoin_to_socket (s : Session) (username : string) (e : Emit) :
  e ∈ lateJoin s username → ∃ p, e = ToSocket p ∧ ∀ m, p ≠ PError m.
Proof.
  unfold lateJoin. repeat case_match;
    try (by intros ?%elem_of_nil);
    intros ->%list_elem_of_singleton; by eexists.
Qed.

(** X8. An error reply means that nothing was changed: whenever the handling
    of a message sends an ['error'] to the caller, the server state is as
    before and the error is the only message sent.  This covers the refused
    creations, the unknown session identifiers and the tokens that do not
    resolve. *)
Theorem error_reply_means_no_change
    (url : string) (w : Server) (sock : nat) (m : Msg) (message : string) :
  ToSocket (PError message) ∈ (handle url w sock m).2 →
  handle url w sock m = (w, [ToSocket (PError message)]).
Proof.
  destruct m as [data sid tokenOf|sid token isAdmin|sid now
                 |sid username submitted]; simpl.
  - unfold createSession.
    destruct (validate data); simpl;
      [intros Hin%list_elem_of_singleton; by simplify_eq|].
    destruct (d_players data), (d_topics data); simpl;
      intros Hin%list_elem_of_singleton; by simplify_eq.
  - destruct (findOne sid (store w)) as [[j sj]|]; simpl;
      [|intros Hin%list_elem_of_singleton; by simplify_eq].
    unfold joinSession. destruct isAdmin; simpl.
    { intros Hin%list_elem_of_singleton. done. }
    destruct (resolveToken (playerTokens sj) token) as [u|]; simpl;
      [destruct (Js.truthy u); simpl|].
    + intros [Hin|Hin]%elem_of_cons; [done|].
      apply lateJoin_to_socket in Hin as (p & Hp & Hne). simplify_eq.
      by destruct (Hne message).
    + intros Hin%list_elem_of_singleton. simplify_eq. by destruct w.
    + intros Hin%list_elem_of_singleton. simplify_eq. by destruct w.
  - destruct (findOne sid (store w)) as [[j sj]|]; simpl;
      intros Hin%list_elem_of_singleton; by simplify_eq.
  - destruct (findOne sid (store w)) as [[j sj]|]; simpl;
      [|intros Hin%list_elem_of_singleton; by simplify_eq].
    unfold submitRatings.
    pose proof (emitResults_to_room
                  (set_ratings
                     (replaceRatings (ratings sj) username
                        (newRatings username submitted)) sj) sid) as Hroom.
    destruct (emitResults _ sid) as [s2 out]. simpl in *.
    intros [Hin|Hin%list_elem_of_singleton]%elem_of_app; [|done].
    by apply Hroom in Hin as (p & ? & _).
Qed.

Lemma error_reply_means_no_change_witness :
  handle "" twoSessions 3 (MJoinSession "s1" "no-such-token" false)
  = (twoSessions, [ToSocket (PError "Invalid or expired token")]).
Proof.
  apply (error_reply_means_no_change "" twoSessions 3
           (MJoinSession "s1" "no-such-token" false)).
  apply list_elem_of_In. vm_compute. left. reflexivity.
Defined.

(** ** Who is reached *)

Lemma handle_emit_shape (url : string) (w : Server) (sock : nat) (m : Msg)
    (e : Emit) :
  e ∈ (handle url w sock m).2 →
  (∃ p, e = ToSocket p) ∨ (∃ p, e = ToRoom (msgSession m) p).
Proof.
  destruct m as [data sid tokenOf|sid token isAdmin|sid now
                 |sid username submitted]; simpl.
  - unfold createSession.
    destruct (validate data); simpl;
      [intros ->%list_elem_of_singleton; by eauto|].
    destruct (d_players data), (d_topics data); simpl;
      intros ->%list_elem_of_singleton; by eauto.
  - destruct (findOne sid (store w)) as [[j sj]|]; simpl;
      [|intros ->%list_elem_of_singleton; by eauto].
    unfold joinSession. destruct isAdmin; simpl;
      [intros ->%list_elem_of_singleton; by eauto|].
    destruct (resolveToken (playerTokens sj) token) as [u|]; simpl;
      [destruct (Js.truthy u); simpl|];
      try (intros ->%list_elem_of_singleton; by eauto).
    intros [->|Hin]%elem_of_cons; [by eauto|].
    apply lateJoin_to_socket in Hin as (p & -> & _). by eauto.
  - destruct (findOne sid (store w)) as [[j sj]|]; simpl;
      intros ->%list_elem_of_singleton; by eauto.
  - destruct (findOne sid (store w)) as [[j sj]|]; simpl;
      [|intros ->%list_elem_of_singleton; by eauto].
    unfold submitRatings.
    pose proof (emitResults_to_room
                  (set_ratings
                     (replaceRatings (ratings sj) username
                        (newRatings username submitted)) sj) sid) as Hroom.
    destruct (emitResults _ sid) as [s2 out]. simpl in *.
    intros [Hin| ->%list_elem_of_singleton]%elem_of_app; [|by eauto].
    apply Hroom in Hin as (p & -> & _). by eauto.
Qed.

Lemma elem_of_deliver (rs : list (nat * string)) (sock k : nat) (p : Payload)
    (e : Emit) :
  (k, p) ∈ deliver rs sock e →
  (e = ToSocket p ∧ k = sock) ∨ (∃ room, e = ToRoom room p ∧ (k, room) ∈ rs).
Proof.
  destruct e as [p'|room p']; simpl.
  - intros Hin%list_elem_of_singleton. left. by simplify_eq.
  - intros ([k' r'] & Heq & Hin)%list_elem_of_fmap.
    apply list_elem_of_filter in Hin as [Hr Hin]. simpl in *.
    right. exists room. by simplify_eq.
Qed.

(** X9. The messages sent while a message addressed to a session is handled
    reach the caller or connections that joined the room of that session, and
    nobody else; the messages sent by a timer callback reach only
    connections that joined the room of the callback's session. *)
Theorem messages_stay_in_the_session
    (url : string) (w : Server) (k : nat) (p : Payload) :
  (∀ sock m,
     (k, p) ∈ deliveries (rooms (handle url w sock m).1) sock
                (handle url w sock m).2 →
     k = sock ∨ (k, msgSession m) ∈ rooms (handle url w sock m).1)
  ∧ (∀ sock j,
       (k, p) ∈ deliveries (rooms w) sock (fire w j).2 →
       ∃ t, timeouts w !! j = Some t ∧ (k, t_sessionId t) ∈ rooms w).
Proof.
  split.
  - intros sock m (e & Hdel & He)%list_elem_of_bind.
    apply elem_of_deliver in Hdel as [[_ ->]|(room & -> & Hroom)];
      [by left|].
    apply handle_emit_shape in He as [[p' ?]|[p' ?]]; simplify_eq.
    by right.
  - intros sock j (e & Hdel & He)%list_elem_of_bind.
    unfold fire in He.
    destruct (timeouts w !! j) as [t|]; [|by apply elem_of_nil in He].
    exists t. split; [done|].
    destruct (findOne (t_sessionId t) (store w)) as [[i s]|];
      [|by apply elem_of_nil in He].
    assert (e ∈ (timerExpired s (t_sessionId t)).2) as He'
      by (by destruct (timerExpired s (t_sessionId t))).
    unfold timerExpired in He'.
    case_match; [|by apply elem_of_nil in He'].
    apply emitResults_to_room in He' as (p' & -> & _).
    apply elem_of_deliver in Hdel as [[? _]|(room & ? & Hroom)];
      by simplify_eq.
Qed.

Lemma messages_stay_in_the_session_witness :
  (0%nat = 3%nat ∨ (0%nat, "s1") ∈ rooms daveSubmits.1)
  ∧ ∃ t, timeouts joinedAndStarted !! 0%nat = Some t
         ∧ (1%nat, t_sessionId t) ∈ rooms joinedAndStarted.
Proof.
  split.
  - apply (proj1 (messages_stay_in_the_session "" fourJoined 0%nat
                    (PRatingsUpdated "dave"))
             3%nat (MSubmitRatings "s1" "dave" [rate "alice" 5 4])).
    apply (list_elem_of_lookup_2 _ 16%nat). vm_compute. reflexivity.
  - apply (proj2 (messages_stay_in_the_session "" joinedAndStarted 1%nat
                    (PPublicResults
                       (ratings (timerExpired
                                   (set_timerStart 1000 onlyAliceSubmitted)
                                   "s1").1)))
             0%nat 0%nat).
    apply (list_elem_of_lookup_2 _ 0%nat). vm_compute. reflexivity.
Defined.

(** ** Creating and then joining *)












(** ** What the expiry of the timer achieves *)

Lemma exists_other_player (l : list string) (p : string) :
  NoDup l → (2 ≤ length l)%nat → ∃ q, q ∈ l ∧ q ≠ p.
Proof.
  intros Hnd Hlen. destruct l as [|a [|b l]]; simpl in Hlen; try lia.
  apply NoDup_cons in Hnd as [Hab _].
  destruct (decide (a = p)) as [->|Hne].
  - exists b. split; [by right; left|]. intros ->. apply Hab. by left.
  - exists a. split; [by left|done].
Qed.

Lemma filter_none {A : Type} (P : A → Prop) `{!∀ x, Decision (P x)}
    (l : list A) :
  (∀ x, x ∈ l → ¬ P x) → filter P l = [].
Proof.
  induction l as [|x l IH]; intros Hall; [done|].
  rewrite filter_cons_False by (apply Hall; by left).
  apply IH. intros y Hy. apply Hall. by right.
Qed.

Lemma timerExpired_quiet (s : Session) (sid : string) :
  phase s = "results" → timerExpired s sid = (s, []).
Proof.
  intros Hphase. unfold timerExpired.
  rewrite (bool_decide_false (phase s ≠ "results")) by naive_solver.
  by rewrite andb_false_r.
Qed.

(** X13. With at least two non-admin players of distinct names and at least one
    topic, the expiry of the timer ends the round in every mode: if somebody
    was unsubmitted and the phase was not ['results'], then afterwards the
    phase is ['results'], nobody is unsubmitted, and a second expiry changes
    nothing and sends nothing. *)
Theorem timerExpired_ends_the_round (s : Session) (sid : string) :
  NoDup (nonAdmin (players s)) →
  (2 ≤ length (nonAdmin (players s)))%nat →
  topics s ≠ [] →
  phase s ≠ "results" →
  unsubmitted s ≠ [] →
  phase (timerExpired s sid).1 = "results"
  ∧ unsubmitted (timerExpired s sid).1 = []
  ∧ timerExpired (timerExpired s sid).1 sid = ((timerExpired s sid).1, []).
Proof.
  intros Hnd Hlen Htopics Hphase Hsome.
  set (s1 := set_ratings
               (autoFill (ratings s) (nonAdmin (players s)) (topics s)
                  (unsubmitted s)) s).
  assert (timerExpired s sid = emitResults s1 sid) as Hexp.
  { unfold timerExpired.
    rewrite bool_decide_true by (destruct (unsubmitted s); [done|simpl; lia]).
    by rewrite bool_decide_true. }
  assert (∀ p, p ∈ nonAdmin (players s) → p ∈ submittedUsers (ratings s1))
    as Hall.
  { intros p Hp. subst s1. simpl.
    destruct (autoFill_spec (unsubmitted s) (nonAdmin (players s)) (topics s)
                (unsubmitted s) (ratings s)) as (added & -> & _ & Hcov);
      [done | |].
    { intros r Hr Hu. apply unsubmitted_spec in Hu as (_ & _ & Hu).
      by destruct (Hu r Hr). }
    destruct (decide (p ∈ submittedUsers (ratings s))) as [Hin|Hout].
    - apply elem_of_submittedUsers in Hin as (r & Hr & Hrp).
      apply elem_of_submittedUsers. exists r. split; [|done].
      apply elem_of_app. by left.
    - destruct (exists_other_player _ p Hnd Hlen) as (q & Hq & Hqp).
      destruct (topics s) as [|tp ts] eqn:Hts; [done|].
      apply elem_of_submittedUsers.
      exists (mkRating p q tp SKIPPED). split; [|done].
      apply Hcov; [|done|done|by left].
      unfold unsubmitted. by apply list_elem_of_filter. }
  assert (emitResults s1 sid = reveal s1 sid (nonAdmin (players s1)))
    as Hreveal.
  { rewrite emitResults_cases. rewrite bool_decide_false, andb_false_r; [done|].
    apply Nat.le_ngt, submseteq_length, NoDup_submseteq; done. }
  rewrite Hexp, Hreveal.
  assert (phase (reveal s1 sid (nonAdmin (players s1))).1 = "results")
    as Hres by apply reveal_phase.
  split_and!.
  - done.
  - rewrite reveal_session. unfold unsubmitted. simpl.
    apply filter_none. intros p Hp Hnot. by apply Hnot, Hall.
  - by apply timerExpired_quiet.
Qed.

Lemma timerExpired_ends_the_round_witness :
  phase (timerExpired onlyAliceSubmitted "s1").1 = "results"
  ∧ unsubmitted (timerExpired onlyAliceSubmitted "s1").1 = []
  ∧ timerExpired (timerExpired onlyAliceSubmitted "s1").1 "s1"
    = ((timerExpired onlyAliceSubmitted "s1").1, []).
Proof.
  apply (timerExpired_ends_the_round onlyAliceSubmitted "s1").
  - by_computation.
  - vm_compute. lia.
  - discriminate.
  - discriminate.
  - discriminate.
Defined.

Lemma autoRatings_nothing_to_fill (ledger : list Rating)
    (ps ts : list string) (u : string) :
  ts = [] ∨ ps = [u] → autoRatings ledger ps ts u = [].
Proof.
  intros [-> | ->]; unfold autoRatings.
  - induction ps as [|q ps IH]; [done|].
    rewrite bind_cons, IH. by case_bool_decide.
  - rewrite bind_singleton. by rewrite bool_decide_false by naive_solver.
Qed.

(** X14. The expiry of the timer has nothing to fill in when the session has no
    topic (an input [createSession] accepts) or a single non-admin player:
    the ledger is left as it is, so the expiry does not make anybody count
    as submitted. *)
Theorem timerExpired_nothing_to_fill (s : Session) (sid : string) :
  topics s = [] ∨ (∃ p, nonAdmin (players s) = [p]) →
  ratings (timerExpired s sid).1 = ratings s.
Proof.
  intros Hcase. unfold timerExpired. case_match; [|done].
  rewrite emitResults_ratings. simpl.
  assert (∀ users ledger,
            users ⊆ nonAdmin (players s) →
            autoFill ledger (nonAdmin (players s)) (topics s) users = ledger)
    as Hfill.
  { induction users as [|u users IH]; intros ledger Hsub; [done|].
    unfold autoFill. simpl.
    rewrite autoRatings_nothing_to_fill, app_nil_r.
    - apply IH. intros x Hx. apply Hsub. by right.
    - destruct Hcase as [?|[p Hp]]; [by left|right].
      rewrite Hp. f_equal.
      assert (u ∈ nonAdmin (players s)) as Hu by (apply Hsub; by left).
      rewrite Hp in Hu. by apply list_elem_of_singleton in Hu. }
  apply Hfill. intros x Hx. unfold unsubmitted in Hx.
  by apply list_elem_of_filter in Hx as [_ ?].
Qed.

Lemma timerExpired_nothing_to_fill_witness :
  ratings (timerExpired noTopicsSession "s3").1 = ratings noTopicsSession.
Proof.
  apply (timerExpired_nothing_to_fill noTopicsSession "s3").
  left. reflexivity.
Defined.

(** ** Averages *)












Lemma filter_ext_in {A : Type} (P Q : A → Prop)
    `{!∀ x, Decision (P x)} `{!∀ x, Decision (Q x)} (l : list A) :
  (∀ x, x ∈ l → (P x ↔ Q x)) → filter P l = filter Q l.
Proof.
  induction l as [|x l IH]; intros Hiff; [done|].
  rewrite !filter_cons.
  rewrite IH by (intros y Hy; apply Hiff; by right).
  destruct (decide (P x)) as [HP|HP], (decide (Q x)) as [HQ|HQ]; try done.
  - destruct HQ. by apply (Hiff x); [left|].
  - destruct HP. by apply (Hiff x); [left|].
Qed.

(** X17. The late-joiner average of [joinSession] and the average of
    [emitResults] coincide on a topic for which the player has received at
    least one rating and none of the ratings received is SKIPPED. *)
Theorem late_average_agrees_without_skips
    (ledger : list Rating) (username tp : string) :
  (∃ r, r ∈ ledger ∧ target r = username ∧ topic r = tp) →
  (∀ r, r ∈ ledger → target r = username → topic r = tp →
        rating r ≠ SKIPPED) →
  lateTopicAverage ledger username tp = topicAverage ledger username tp.
Proof.
  intros (r0 & Hr0 & Ht0 & Hp0) Hnoskip.
  unfold lateTopicAverage, topicAverage, ratingsForTopic.
  rewrite (filter_ext_in (λ r, topic r = tp ∧ rating r ≠ -1)
             (λ r, topic r = tp)).
  - assert (r0 ∈ filter (λ r, topic r = tp)
                     (filter (λ r, target r = username) ledger)) as Hin
      by (by rewrite !list_elem_of_filter).
    rewrite length_fmap.
    destruct (filter (λ r, topic r = tp)
                (filter (λ r, target r = username) ledger)) as [|r rs];
      [by apply elem_of_nil in Hin|].
    by rewrite !bool_decide_true by (simpl; lia).
  - intros r Hr. apply list_elem_of_filter in Hr as [Ht Hr].
    split; [by intros [? _]|]. intros Hp. split; [done|].
    by apply Hnoskip.
Qed.

Lemma late_average_agrees_without_skips_witness :
  lateTopicAverage (ratings onlyAliceSubmitted) "bob" "pace"
  = topicAverage (ratings onlyAliceSubmitted) "bob" "pace".
Proof.
  apply (late_average_agrees_without_skips (ratings onlyAliceSubmitted)
           "bob" "pace").
  - exists (mkRating "alice" "bob" "pace" 2). split; [by_computation|done].
  - intros r Hr. apply list_elem_of_In in Hr. simpl in Hr.
    destruct Hr as [<-|[<-|[<-|[<-|[]]]]]; simpl; intros; (discriminate || done).
Defined.

(** ** The two copies of [emitResults] *)

Lemma second_copy_topicAverage (ledger : list Rating) (player tp : string) :
  SecondCopy.topicAverage ledger player tp = topicAverage ledger player tp.
Proof.
  unfold SecondCopy.topicAverage, topicAverage, SecondCopy.ratingsForTopic,
    ratingsForTopic.
  rewrite list_filter_filter.
  rewrite (filter_ext_in (λ r, rating r ≠ -1 ∧ topic r = tp)
             (λ r, topic r = tp ∧ rating r ≠ -1)) by naive_solver.
  by rewrite length_fmap.
Qed.

(** X18. In game mode and in anonymous mode the two copies of [emitResults]
    agree: they save the same session, and the averages they compute for a
    player are the same on every topic. *)
Theorem second_copy_agrees_in_game_and_anonymous_mode
    (s : Session) (sid : string) :
  isGameMode s = true ∨ isAnonymous s = true →
  (SecondCopy.emitResults s sid).1 = (emitResults s sid).1
  ∧ ∀ player,
      SecondCopy.topicAverages (SecondCopy.playerResults s player)
      = topicAverages (playerResults s player).
Proof.
  intros Hmode. split.
  - rewrite emitResults_cases. unfold SecondCopy.emitResults.
    assert (∀ ps, (SecondCopy.reveal s sid ps).1 = (reveal s sid ps).1)
      as Hrev by (intros ps; unfold SecondCopy.reveal, reveal;
                  by destruct (isAnonymous (set_phase "results" s))).
    destruct (isGameMode s), (isAnonymous s), Hmode as [?|?]; try done;
      simpl; by case_bool_decide.
  - intros player. apply map_eq. intros tp. simpl.
    rewrite (lookup_foldl_insert
               (λ tp, SecondCopy.topicAverage (ratings s) player tp)).
    rewrite (lookup_foldl_insert
               (λ tp, topicAverage (ratings s) player tp)).
    by rewrite second_copy_topicAverage.
Qed.

Lemma second_copy_agrees_in_game_and_anonymous_mode_witness :
  (SecondCopy.emitResults fourSubmitted "s1").1
  = (emitResults fourSubmitted "s1").1
  ∧ ∀ player,
      SecondCopy.topicAverages (SecondCopy.playerResults fourSubmitted player)
      = topicAverages (playerResults fourSubmitted player).
Proof.
  apply (second_copy_agrees_in_game_and_anonymous_mode fourSubmitted "s1").
  right. reflexivity.
Defined.

Lemma length_filter_split {A : Type} (P : A → Prop) `{!∀ x, Decision (P x)}
    (l : list A) :
  (length (filter P l) + length (filter (λ x, ¬ P x) l))%nat = length l.
Proof.
  induction l as [|x l IH]; [done|].
  rewrite !filter_cons. destruct (decide (P x)) as [HP|HP].
  - rewrite decide_False by naive_solver. simpl. lia.
  - rewrite decide_True by done. simpl. lia.
Qed.

(** X19. In the second copy every tuple a player has received on a topic is
    either counted in [skippedCounts] or enters the average, never both:
    the skipped count and the number of averaged ratings add up to the
    number of tuples received. *)
Theorem second_copy_skipped_and_averaged
    (ledger : list Rating) (player tp : string) :
  (SecondCopy.skippedCount ledger player tp
   + length (ratingsForTopic ledger player tp))%nat
  = length (filter (λ r, target r = player ∧ topic r = tp) ledger).
Proof.
  unfold SecondCopy.skippedCount, SecondCopy.ratingsForTopic, ratingsForTopic.
  set (received := filter (λ r, topic r = tp)
                     (filter (λ r, target r = player) ledger)).
  assert (filter (λ r, topic r = tp ∧ rating r ≠ -1)
            (filter (λ r, target r = player) ledger)
          = filter (λ r, ¬ rating r = -1) received) as ->.
  { subst received. rewrite (list_filter_filter (λ r, ¬ rating r = -1)).
    apply filter_ext_in. naive_solver. }
  assert (filter (λ r, target r = player ∧ topic r = tp) ledger = received)
    as ->.
  { subst received. rewrite list_filter_filter.
    apply filter_ext_in. naive_solver. }
  apply length_filter_split.
Qed.

(** X20. The total average of the second copy is the marker ['-'] exactly when
    no topic of the session has a numeric average for the player. *)
Theorem second_copy_total_average_marker (s : Session) (player : string) :
  SecondCopy.totalAverage (SecondCopy.playerResults s player) = Js.Str "-"
  ↔ ∀ tp, tp ∈ topics s →
          SecondCopy.topicAverage (ratings s) player tp = Js.Str "No ratings".
Proof.
  unfold SecondCopy.playerResults. simpl. unfold SecondCopy.totalAvg.
  set (avg := foldl _ ∅ (topics s)).
  assert (∀ tp, tp ∈ topics s →
            avg !! tp = Some (SecondCopy.topicAverage (ratings s) player tp))
    as Havg.
  { intros tp Htp. subst avg.
    rewrite (lookup_foldl_insert
               (λ tp, SecondCopy.topicAverage (ratings s) player tp)).
    by rewrite decide_True. }
  set (valid := omap _ (Js.setOf (topics s))).
  split.
  - intros Hmark tp Htp.
    destruct (SecondCopy.topicAverage (ratings s) player tp) as [q|m] eqn:E.
    + assert (q ∈ valid) as Hq.
      { subst valid. apply list_elem_of_omap. exists tp.
        split; [by rewrite elem_of_setOf|]. by rewrite (Havg tp Htp), E. }
      destruct valid; [by apply elem_of_nil in Hq|].
      by rewrite bool_decide_true in Hmark by (simpl; lia).
    + unfold SecondCopy.topicAverage in E. by case_bool_decide.
  - intros Hall.
    assert (valid = []) as ->; [|done].
    destruct valid as [|q valid'] eqn:Ev; [done|].
    assert (q ∈ q :: valid') as Hq by by left.
    rewrite <- Ev in Hq. subst valid.
    apply list_elem_of_omap in Hq as (tp & Htp & Hq).
    rewrite elem_of_setOf in Htp.
    by rewrite (Havg tp Htp), (Hall tp Htp) in Hq.
Qed.

(** ** Completion, once more *)

(** X21. Whatever else the ledger holds, once every non-admin player is among
    the raters and the player names are distinct, the completion check lets
    the results out in every mode: the phase becomes ['results'] and the
    results are sent. *)
Theorem all_submitted_reveals (s : Session) (sid : string) :
  NoDup (nonAdmin (players s)) →
  (∀ p, p ∈ nonAdmin (players s) → p ∈ submittedUsers (ratings s)) →
  emitResults s sid = reveal s sid (nonAdmin (players s))
  ∧ phase (emitResults s sid).1 = "results".
Proof.
  intros Hnd Hall.
  assert (emitResults s sid = reveal s sid (nonAdmin (players s))) as ->.
  { rewrite emitResults_cases.
    rewrite bool_decide_false, andb_false_r; [done|].
    apply Nat.le_ngt, submseteq_length, NoDup_submseteq; done. }
  split; [done | apply reveal_phase].
Qed.

Lemma all_submitted_reveals_witness :
  emitResults fourSubmitted "s1"
  = reveal fourSubmitted "s1" (nonAdmin (players fourSubmitted))
  ∧ phase (emitResults fourSubmitted "s1").1 = "results".
Proof.
  apply (all_submitted_reveals fourSubmitted "s1").
  - by_computation.
  - intros p Hp. apply list_elem_of_In in Hp. simpl in Hp.
    destruct Hp as [<-|[<-|[<-|[<-|[]]]]]; by_computation.
Defined.

(** X22. In game mode and in anonymous mode, for a session whose player names
    are distinct, whose raters are all non-admin players and whose phase is
    not yet ['results'], the completion check moves the phase to ['results']
    if and only if every non-admin player is among the raters. *)
Theorem known_raters_reveal_iff_all_submitted (s : Session) (sid : string) :
  isGameMode s = true ∨ isAnonymous s = true →
  NoDup (nonAdmin (players s)) →
  (∀ r, r ∈ ratings s → rater r ∈ nonAdmin (players s)) →
  phase s ≠ "results" →
  phase (emitResults s sid).1 = "results"
  ↔ ∀ p, p ∈ nonAdmin (players s) → p ∈ submittedUsers (ratings s).
Proof.
  intros Hmode Hnd Hraters Hphase.
  destruct (emitResults_reveals_iff_all_submitted s sid Hmode Hnd Hraters)
    as [[-> Hall]|[-> (p & Hp & Hmiss)]].
  - split; [done|]. intros _. apply reveal_phase.
  - simpl. split; [done|]. intros Hall. destruct Hmiss. by apply Hall.
Qed.

Lemma known_raters_reveal_iff_all_submitted_witness :
  phase (emitResults threeOfFourSubmitted "s1").1 = "results"
  ↔ ∀ p, p ∈ nonAdmin (players threeOfFourSubmitted) →
         p ∈ submittedUsers (ratings threeOfFourSubmitted).
Proof.
  apply (known_raters_reveal_iff_all_submitted threeOfFourSubmitted "s1").
  - right. reflexivity.
  - by_computation.
  - intros r Hr. apply list_elem_of_In in Hr. simpl in Hr.
    destruct Hr as [<-|[<-|[<-|[<-|[]]]]]; by_computation.
  - discriminate.
Defined.

(** ** What a late joiner of an anonymous session is sent *)

Lemma lateResults_own_tuples (s1 s2 : Session) (u : string) :
  topics s1 = topics s2 →
  filter (λ r, target r = u) (ratings s1)
  = filter (λ r, target r = u) (ratings s2) →
  lateResults s1 u = lateResults s2 u.
Proof.
  intros Ht Hf. unfold lateResults, lateTopicAverage. by rewrite Ht, Hf.
Qed.

(** X23. When a session is anonymous, nothing [joinSession] sends carries a
    rater's name, whoever joins and however: the admin and a player before
    the third submission get the snapshot only, a late joiner gets in
    addition the averages of the ratings that target the joiner, which do not
    depend on any tuple targeting somebody else. *)
Theorem joinSession_anonymous_sends_no_rater
    (s : Session) (token : string) (isAdmin : bool) :
  isAnonymous s = true →
  Forall (λ e, raterFields (payloadOf e) = [])
    (j_emits (joinSession s token isAdmin))
  ∧ ∀ s2 u,
      topics s2 = topics s →
      filter (λ r, target r = u) (ratings s2)
      = filter (λ r, target r = u) (ratings s) →
      lateResults s2 u = lateResults s u.
Proof.
  intros Hanon. split; [|intros s2 u; apply lateResults_own_tuples].
  unfold joinSession. destruct isAdmin; simpl; [by repeat constructor|].
  destruct (resolveToken (playerTokens s) token) as [u|]; simpl;
    [destruct (Js.truthy u); simpl|]; try (by repeat constructor).
  constructor; [done|]. unfold lateJoin. rewrite Hanon.
  case_bool_decide; by repeat constructor.
Qed.

Lemma joinSession_anonymous_sends_no_rater_witness :
  Forall (λ e, raterFields (payloadOf e) = [])
    (j_emits (joinSession threeOfFourSubmitted "tok-dave" false))
  ∧ ∀ s2 u,
      topics s2 = topics threeOfFourSubmitted →
      filter (λ r, target r = u) (ratings s2)
      = filter (λ r, target r = u) (ratings threeOfFourSubmitted) →
      lateResults s2 u = lateResults threeOfFourSubmitted u.
Proof.
  apply (joinSession_anonymous_sends_no_rater threeOfFourSubmitted
           "tok-dave" false).
  reflexivity.
Defined.
